(** * The Calmarendian date engine

    A shallow embedding of [npm_calmarendian_date]: the configuration constants
    of [c_date_config.py] and the [CalmarendianDate] class of
    [calmarendian_date.py], followed by the properties of the decomposition of an
    absolute day reference (ADR) into grand cycle, cycle, season, week and day.

    Python integers are [Z]; Python floats are IEEE-754 binary64 values
    ([spec_float] at precision 53); strings are [string]; a computation that
    may raise is a [result].  The element classes of the module
    [date_elements] are an interface, [DateElements]. *)

From Stdlib Require Import ZArith Lia Bool List String Ascii DecimalString.
From Stdlib Require Import SpecFloat.
Import ListNotations.
Local Open Scope Z_scope.

(** ** Python floats *)

Module Binary64.
Definition prec : Z := 53.
Definition emax : Z := 1024.

(** [float(z)], correctly rounded; exact when [|z| < 2^53]. *)
Definition of_int (z : Z) : spec_float := binary_normalize prec emax z 0 false.

(** [x / y] on floats, rounded to nearest even. *)
Definition div (x y : spec_float) : spec_float := SFdiv prec emax x y.

(** The integer below a finite float; [None] on NaN and the infinities. *)
Definition floor (f : spec_float) : option Z :=
  match f with
  | S754_zero _ => Some 0
  | S754_finite s m e =>
      let v := if s then Zneg m else Zpos m in
      Some (if 0 <=? e then v * 2 ^ e else v / 2 ^ (- e))
  | S754_infinity _ | S754_nan => None
  end.

(** The integer part of a finite float (rounding toward zero). *)
Definition trunc (f : spec_float) : option Z :=
  match f with
  | S754_zero _ => Some 0
  | S754_finite s m e =>
      let v := if 0 <=? e then Zpos m * 2 ^ e else Zpos m / 2 ^ (- e) in
      Some (if s then - v else v)
  | S754_infinity _ | S754_nan => None
  end.
End Binary64.

(** ** Exceptions and results *)

(** The three messages of [CalmarendianDateError] raised by the [adr] setter. *)
Inductive DateError : Type :=
| ADR_cannot_convert
| ADR_class_cannot_be_converted
| ADR_out_of_range (v : Z).

Inductive exn : Type :=
| CalmarendianDateError (e : DateError)
| ValueError
| TypeError
| OverflowError
| ElementError.

Inductive result (A : Type) : Type :=
| Ok (a : A)
| Raise (e : exn).
Arguments Ok {A} a.
Arguments Raise {A} e.

Definition bind {A B : Type} (r : result A) (k : A -> result B) : result B :=
  match r with
  | Ok a => k a
  | Raise e => Raise e
  end.

Notation "x <- r ;; k" := (bind r (fun x => k))
  (at level 61, r at next level, right associativity).
Notation "' p <- r ;; k" := (bind r (fun x => match x with p => k end))
  (at level 61, p pattern, r at next level, right associativity).

(** ** Python values reaching [int()] and [math.floor] *)

(** An integer, a float, or any other object, which is represented by what
    [int()] does with it (strings, [None], objects with [__int__], ...). *)
Inductive PyValue : Type :=
| PyInt (z : Z)
| PyFloat (f : spec_float)
| PyObject (conversion : result Z).

Definition py_int (v : PyValue) : result Z :=
  match v with
  | PyInt z => Ok z
  | PyFloat S754_nan => Raise ValueError
  | PyFloat (S754_infinity _) => Raise OverflowError
  | PyFloat f => match Binary64.trunc f with Some z => Ok z | None => Raise ValueError end
  | PyObject r => r
  end.

Definition math_floor (f : spec_float) : result Z :=
  match f with
  | S754_nan => Raise ValueError
  | S754_infinity _ => Raise OverflowError
  | _ => match Binary64.floor f with Some z => Ok z | None => Raise ValueError end
  end.

(** [a / b] on two integers of magnitude below [2^53]. *)
Definition truediv (a b : Z) : spec_float :=
  Binary64.div (Binary64.of_int a) (Binary64.of_int b).

(** [str(n)] and the format specifications [{:>02}] and [{:>03}]. *)
Definition str (n : Z) : string := NilZero.string_of_int (Z.to_int n).

Fixpoint zeros (n : nat) : string :=
  match n with
  | O => EmptyString
  | S n' => String "0" (zeros n')
  end.

Definition rjust0 (width : nat) (s : string) : string :=
  (zeros (width - String.length s) ++ s)%string.

(** [str.upper] on the ASCII letters. *)
Definition is_lower (c : ascii) : bool := (("a" <=? c) && (c <=? "z"))%char.
Definition is_upper (c : ascii) : bool := (("A" <=? c) && (c <=? "Z"))%char.

Definition to_upper (c : ascii) : ascii :=
  if is_lower c then ascii_of_N (N_of_ascii c - 32) else c.

Definition to_lower (c : ascii) : ascii :=
  if is_upper c then ascii_of_N (N_of_ascii c + 32) else c.

Fixpoint upper (s : string) : string :=
  match s with
  | EmptyString => EmptyString
  | String c s' => String (to_upper c) (upper s')
  end.

(** ** Regular expressions *)

Module Re.
Inductive regex : Type :=
| Void
| Eps
| Chars (p : ascii -> bool)
| Cat (r1 r2 : regex)
| Alt (r1 r2 : regex)
| Star (r : regex).

Fixpoint nullable (r : regex) : bool :=
  match r with
  | Void => false
  | Eps => true
  | Chars _ => false
  | Cat r1 r2 => nullable r1 && nullable r2
  | Alt r1 r2 => nullable r1 || nullable r2
  | Star _ => true
  end.

Fixpoint deriv (a : ascii) (r : regex) : regex :=
  match r with
  | Void => Void
  | Eps => Void
  | Chars p => if p a then Eps else Void
  | Cat r1 r2 =>
      if nullable r1 then Alt (Cat (deriv a r1) r2) (deriv a r2)
      else Cat (deriv a r1) r2
  | Alt r1 r2 => Alt (deriv a r1) (deriv a r2)
  | Star r1 => Cat (deriv a r1) (Star r1)
  end.

Fixpoint accepts (r : regex) (s : list ascii) : bool :=
  match s with
  | [] => nullable r
  | a :: s' => accepts (deriv a r) s'
  end.

(** The language of a regular expression. *)
Inductive Matches : regex -> list ascii -> Prop :=
| MEps : Matches Eps []
| MChars p a : p a = true -> Matches (Chars p) [a]
| MCat r1 r2 s1 s2 : Matches r1 s1 -> Matches r2 s2 -> Matches (Cat r1 r2) (s1 ++ s2)
| MAltL r1 r2 s : Matches r1 s -> Matches (Alt r1 r2) s
| MAltR r1 r2 s : Matches r2 s -> Matches (Alt r1 r2) s
| MStar0 r : Matches (Star r) []
| MStarS r s1 s2 : Matches r s1 -> Matches (Star r) s2 -> Matches (Star r) (s1 ++ s2).

(** A regular expression with an empty language, seen on its syntax. *)
Fixpoint hopeless (r : regex) : bool :=
  match r with
  | Void => true
  | Eps | Chars _ | Star _ => false
  | Cat r1 r2 => hopeless r1 || hopeless r2
  | Alt r1 r2 => hopeless r1 && hopeless r2
  end.

(** Pattern syntax, under the flag [re.IGNORECASE]: a character matches when
    it or one of its case variants is in the class. *)
Definition ignorecase (p : ascii -> bool) : ascii -> bool :=
  fun a => p a || p (to_lower a) || p (to_upper a).

Definition class (ic : bool) (p : ascii -> bool) : regex :=
  Chars (if ic then ignorecase p else p).

Definition range (ic : bool) (lo hi : ascii) : regex :=
  class ic (fun a => ((lo <=? a) && (a <=? hi))%char).

Definition lit (ic : bool) (c : ascii) : regex := class ic (Ascii.eqb c).

Definition opt (r : regex) : regex := Alt r Eps.

Fixpoint times (n : nat) (r : regex) : regex :=
  match n with
  | O => Eps
  | S n' => Cat r (times n' r)
  end.

Fixpoint word (ic : bool) (s : string) : regex :=
  match s with
  | EmptyString => Eps
  | String c s' => Cat (lit ic c) (word ic s')
  end.

(** [^] r [$] under [Pattern.match]: [$] holds at the end of the string and
    just before a newline that ends it. *)
Definition anchored (r : regex) : regex := Cat r (opt (lit false "010")).

Definition py_match (r : regex) (s : string) : bool :=
  accepts (anchored r) (list_ascii_of_string s).
End Re.

(** ** [c_date_config.py] *)

Module CDateConfig.
Definition MIN_ADR : Z := -1718100.
Definition MAX_ADR : Z := 170091999.

Definition DAYS_per_GRAND_CYCLE : Z := 1718101.
Definition DAYS_per_CYCLE : spec_float := truediv DAYS_per_GRAND_CYCLE 700.

(** [^([0-9]{2})-([0-7][0-9]{2})-([1-7])-([0-5][0-9])-([1-8])$] *)
Definition GCN_DATE_STRING_RE : Re.regex :=
  Re.Cat (Re.times 2 (Re.range false "0" "9"))
 (Re.Cat (Re.lit false "-")
 (Re.Cat (Re.Cat (Re.range false "0" "7") (Re.times 2 (Re.range false "0" "9")))
 (Re.Cat (Re.lit false "-")
 (Re.Cat (Re.range false "1" "7")
 (Re.Cat (Re.lit false "-")
 (Re.Cat (Re.Cat (Re.range false "0" "5") (Re.range false "0" "9"))
 (Re.Cat (Re.lit false "-")
         (Re.range false "1" "8")))))))).

(** [^([1-9]?[0-9]{3})-([1-7])-([0-5][0-9])-([1-8]) *(BZ|BH|CE)?$],
    compiled with [re.IGNORECASE]. *)
Definition CSN_DATE_STRING_RE : Re.regex :=
  Re.Cat (Re.Cat (Re.opt (Re.range true "1" "9")) (Re.times 3 (Re.range true "0" "9")))
 (Re.Cat (Re.lit true "-")
 (Re.Cat (Re.range true "1" "7")
 (Re.Cat (Re.lit true "-")
 (Re.Cat (Re.Cat (Re.range true "0" "5") (Re.range true "0" "9"))
 (Re.Cat (Re.lit true "-")
 (Re.Cat (Re.range true "1" "8")
 (Re.Cat (Re.Star (Re.lit true " "))
         (Re.opt (Re.Alt (Re.word true "BZ") (Re.Alt (Re.word true "BH") (Re.word true "CE"))))))))))).

Definition TEMP_BASELINE_ADR : Z := 1907093.
Definition APOCALYPSE_EPOCH_ADR : Z := TEMP_BASELINE_ADR.
End CDateConfig.

(** ** The element classes of [date_elements] *)

Module GrandCycle.
Record t : Type := { number : Z }.
End GrandCycle.

Module CycleInGrandCycle.
Record t : Type := { number : Z }.
End CycleInGrandCycle.

Module Season.
Record t : Type := { number : Z }.
End Season.

Module Week.
Record t : Type := { number : Z; season : Season.t }.
End Week.

Module Day.
Record t : Type := { number : Z; week : Week.t; cycle : CycleInGrandCycle.t }.
End Day.

(** Modelled from the spec: the module [date_elements] is not among the
    sources.  The interface lists what [calmarendian_date.py] uses of its five
    classes: the validation done by each constructor, [days_prior()], and the
    names of days and seasons. *)
Class DateElements : Type := {
  GrandCycle_valid : Z -> bool;
  CycleInGrandCycle_valid : Z -> bool;
  Season_valid : Z -> bool;
  Week_valid : Z -> Season.t -> bool;
  Day_valid : Z -> Week.t -> CycleInGrandCycle.t -> bool;
  GrandCycle_days_prior : GrandCycle.t -> Z;
  CycleInGrandCycle_days_prior : CycleInGrandCycle.t -> Z;
  Season_days_prior : Season.t -> Z;
  Week_days_prior : Week.t -> Z;
  Day_name : Day.t -> string;
  Day_short_name : Day.t -> string;
  Season_name : Season.t -> string
}.

Section Constructors.
Context {E : DateElements}.

Definition new_GrandCycle (n : Z) : result GrandCycle.t :=
  if GrandCycle_valid n then Ok {| GrandCycle.number := n |} else Raise ElementError.

Definition new_CycleInGrandCycle (n : Z) : result CycleInGrandCycle.t :=
  if CycleInGrandCycle_valid n then Ok {| CycleInGrandCycle.number := n |}
  else Raise ElementError.

Definition new_Season (n : Z) : result Season.t :=
  if Season_valid n then Ok {| Season.number := n |} else Raise ElementError.

Definition new_Week (n : Z) (season : Season.t) : result Week.t :=
  if Week_valid n season then Ok {| Week.number := n; Week.season := season |}
  else Raise ElementError.

Definition new_Day (n : Z) (week : Week.t) (cycle : CycleInGrandCycle.t) : result Day.t :=
  if Day_valid n week cycle
  then Ok {| Day.number := n; Day.week := week; Day.cycle := cycle |}
  else Raise ElementError.
End Constructors.

(** ** [calmarendian_date.py] *)

Inductive EraMarker : Type := BZ | BH | CE.

Module Era.
Definition name (em : EraMarker) : string :=
  match em with BZ => "BZ" | BH => "BH" | CE => "CE" end.

Definition value (em : EraMarker) : string :=
  match em with
  | BZ => "Before Time Zero"
  | BH => "Before History"
  | CE => "Current Era"
  end.

Definition eqb (a b : EraMarker) : bool :=
  match a, b with
  | BZ, BZ | BH, BH | CE, CE => true
  | _, _ => false
  end.
End Era.

Record CalmarendianDate : Type := {
  adr : Z;
  grand_cycle : GrandCycle.t;
  cycle : CycleInGrandCycle.t;
  season : Season.t;
  week : Week.t;
  day : Day.t
}.

(** The [adr] setter: the value it stores, or the exception it raises. *)
Definition adr_setter (new_value : PyValue) : result Z :=
  match py_int new_value with
  | Raise ValueError => Raise (CalmarendianDateError ADR_cannot_convert)
  | Raise TypeError => Raise (CalmarendianDateError ADR_class_cannot_be_converted)
  | Raise e => Raise e
  | Ok v =>
      if (v <? CDateConfig.MIN_ADR) || (v >? CDateConfig.MAX_ADR)
      then Raise (CalmarendianDateError (ADR_out_of_range v))
      else Ok v
  end.

(** [date.adr = new_value] on a constructed date. *)
Definition assign_adr (date : CalmarendianDate) (new_value : PyValue)
  : result CalmarendianDate :=
  v <- adr_setter new_value ;;
  Ok {| adr := v; grand_cycle := grand_cycle date; cycle := cycle date;
        season := season date; week := week date; day := day date |}.

Definition py_sum (l : list Z) : Z := fold_left Z.add l 0.

Section Date.
Context {E : DateElements}.

Definition from_objects (grand_cycle : GrandCycle.t) (cycle : CycleInGrandCycle.t)
    (season : Season.t) (week : Week.t) (day : Day.t) : result CalmarendianDate :=
  v <- adr_setter (PyInt (py_sum [ GrandCycle_days_prior grand_cycle;
                                   CycleInGrandCycle_days_prior cycle;
                                   Season_days_prior season;
                                   Week_days_prior week;
                                   Day.number day ])) ;;
  Ok {| adr := v; grand_cycle := grand_cycle; cycle := cycle;
        season := season; week := week; day := day |}.

Definition from_numbers (gc c s w d : Z) : result CalmarendianDate :=
  grand_cycle <- new_GrandCycle gc ;;
  cycle <- new_CycleInGrandCycle c ;;
  season <- new_Season s ;;
  week <- new_Week w season ;;
  day <- new_Day d week cycle ;;
  from_objects grand_cycle cycle season week day.

(** The [while] loop of [cycle_decode]; it runs at most [700 - cycle] times,
    and [fuel] is that bound. *)
Fixpoint cycle_scan (fuel : nat) (cycle days : Z) : result Z :=
  match fuel with
  | O => Ok cycle
  | S fuel' =>
      if cycle <? 700 then
        next <- new_CycleInGrandCycle (cycle + 1) ;;
        if CycleInGrandCycle_days_prior next <? days
        then cycle_scan fuel' (cycle + 1) days
        else Ok cycle
      else Ok cycle
  end.

Definition cycle_decode (days : Z) : result Z :=
  cycle <- math_floor (Binary64.div (Binary64.of_int days) CDateConfig.DAYS_per_CYCLE) ;;
  cycle_scan (Z.to_nat (700 - cycle)) cycle days.

Definition elements_from_adr (self_adr : Z)
  : result (GrandCycle.t * CycleInGrandCycle.t * Season.t * Week.t * Day.t) :=
  let residue := self_adr in
  q <- math_floor (truediv (residue - 1) CDateConfig.DAYS_per_GRAND_CYCLE) ;;
  grand_cycle <- new_GrandCycle (q + 1) ;;
  let residue :=
    residue - (GrandCycle.number grand_cycle - 1) * CDateConfig.DAYS_per_GRAND_CYCLE in
  c <- cycle_decode residue ;;
  cycle <- new_CycleInGrandCycle c ;;
  let residue := residue - CycleInGrandCycle_days_prior cycle in
  q <- math_floor (truediv (residue - 1) 350) ;;
  season <- new_Season (Z.min (q + 1) 7) ;;
  let residue := residue - Season_days_prior season in
  q <- math_floor (truediv (residue - 1) 7) ;;
  week <- new_Week (Z.min (q + 1) 51) season ;;
  let residue := residue - Week_days_prior week in
  day <- new_Day residue week cycle ;;
  Ok (grand_cycle, cycle, season, week, day).

Definition __init__ (new_adr : PyValue) : result CalmarendianDate :=
  v <- adr_setter new_adr ;;
  ' (grand_cycle, cycle, season, week, day) <- elements_from_adr v ;;
  Ok {| adr := v; grand_cycle := grand_cycle; cycle := cycle;
        season := season; week := week; day := day |}.
End Date.

Definition absolute_cycle_ref (self : CalmarendianDate) : Z * EraMarker :=
  let acr :=
    Z.abs ((GrandCycle.number (grand_cycle self) - 1) * 700
           + CycleInGrandCycle.number (cycle self)) in
  let em :=
    if GrandCycle.number (grand_cycle self) <=? 0 then BZ
    else if (1 <=? acr) && (acr <=? 500) then BH
    else CE in
  (acr, em).

Definition grand_cycle_notation (self : CalmarendianDate) : string :=
  (rjust0 2 (str (GrandCycle.number (grand_cycle self))) ++ "-"
   ++ rjust0 3 (str (CycleInGrandCycle.number (cycle self))) ++ "-"
   ++ str (Season.number (season self)) ++ "-"
   ++ rjust0 2 (str (Week.number (week self))) ++ "-"
   ++ str (Day.number (day self)))%string.

(** The test shared by the two symbolic renderings: is an era marker shown? *)
Definition era_marker_shown (era_marker : option string) (em : EraMarker) : bool :=
  let era_marker := option_map upper era_marker in
  match era_marker with
  | Some m => String.eqb m "CE" || (String.eqb m "BH" && Era.eqb em BH) || Era.eqb em BZ
  | None => Era.eqb em BZ
  end.

Definition common_symbolic_notation (self : CalmarendianDate) (era_marker : option string)
  : string :=
  let '(acr, em) := absolute_cycle_ref self in
  let era_marker :=
    if era_marker_shown era_marker em then (" " ++ Era.name em)%string else ""%string in
  (rjust0 3 (str acr) ++ "-" ++ str (Season.number (season self)) ++ "-"
   ++ rjust0 2 (str (Week.number (week self))) ++ "-"
   ++ str (Day.number (day self)) ++ era_marker)%string.

Definition gcn (self : CalmarendianDate) : string := grand_cycle_notation self.
Definition csn (self : CalmarendianDate) : string := common_symbolic_notation self None.

(** Comparison with another [CalmarendianDate]; with any other object the
    methods return [NotImplemented]. *)
Definition __eq__ (self other : CalmarendianDate) : bool := adr self =? adr other.
Definition __lt__ (self other : CalmarendianDate) : bool := adr self <? adr other.

(** The comparisons that [functools.total_ordering] derives from the two. *)
Definition __le__ (self other : CalmarendianDate) : bool :=
  __lt__ self other || __eq__ self other.
Definition __gt__ (self other : CalmarendianDate) : bool :=
  negb (__lt__ self other || __eq__ self other).
Definition __ge__ (self other : CalmarendianDate) : bool := negb (__lt__ self other).

Definition __str__ (self : CalmarendianDate) : string := csn self.
Definition __repr__ (self : CalmarendianDate) : string :=
  ("CalmarendianDate(" ++ str (adr self) ++ ")")%string.

Section Colloquial.
Context {E : DateElements}.

Definition colloquial_date (self : CalmarendianDate) (era_marker : option string)
    (verbose : bool) : string :=
  let first_separator := if verbose then " of"%string else ","%string in
  let '(acr, em) := absolute_cycle_ref self in
  let era_marker :=
    if era_marker_shown era_marker em
    then (if verbose then " " ++ Era.value em else " " ++ Era.name em)%string
    else ""%string in
  if Week.number (week self) =? 51 then
    let day_name := if verbose then Day_name (day self) else Day_short_name (day self) in
    (day_name ++ " of " ++ str acr ++ era_marker)%string
  else
    (Day_name (day self) ++ first_separator ++ " Week " ++ str (Week.number (week self))
     ++ " of " ++ Season_name (season self) ++ " " ++ str acr ++ era_marker)%string.
End Colloquial.

(** ** The scan of [cycle_decode] as the specification words it

    "... scan forward while the next cycle's days_prior() is still <= residue":
    the same loop with a non-strict comparison. *)
Section SpecScan.
Context {E : DateElements}.

Fixpoint cycle_scan_spec (fuel : nat) (cycle days : Z) : result Z :=
  match fuel with
  | O => Ok cycle
  | S fuel' =>
      if cycle <? 700 then
        next <- new_CycleInGrandCycle (cycle + 1) ;;
        if CycleInGrandCycle_days_prior next <=? days
        then cycle_scan_spec fuel' (cycle + 1) days
        else Ok cycle
      else Ok cycle
  end.

Definition cycle_decode_spec (days : Z) : result Z :=
  cycle <- math_floor (Binary64.div (Binary64.of_int days) CDateConfig.DAYS_per_CYCLE) ;;
  cycle_scan_spec (Z.to_nat (700 - cycle)) cycle days.
End SpecScan.

(** ** What the engine expects of [date_elements] *)

Section Contract.
Context (E : DateElements).

(** Days of the grand cycle before cycle [c], and through its last day. *)
Definition days_before (c : Z) : Z :=
  CycleInGrandCycle_days_prior {| CycleInGrandCycle.number := c |}.

Definition cycle_end (c : Z) : Z :=
  if c =? 700 then CDateConfig.DAYS_per_GRAND_CYCLE else days_before (c + 1).

(** Cycle [c] holds the day numbered [days] within the grand cycle. *)
Definition holds (c days : Z) : Prop :=
  1 <= c <= 700 /\ days_before c < days <= cycle_end c.

(** The elements that [elements_from_adr] builds, in closed form. *)
Definition decomposed (a T : Z)
  : GrandCycle.t * CycleInGrandCycle.t * Season.t * Week.t * Day.t :=
  let q := (a - 1) / CDateConfig.DAYS_per_GRAND_CYCLE in
  let r := a - q * CDateConfig.DAYS_per_GRAND_CYCLE - days_before T in
  let s := Z.min ((r - 1) / 350 + 1) 7 in
  let r3 := r - (s - 1) * 350 in
  let w := Z.min ((r3 - 1) / 7 + 1) 51 in
  let r4 := r3 - (w - 1) * 7 in
  let cycle := {| CycleInGrandCycle.number := T |} in
  let season := {| Season.number := s |} in
  let week := {| Week.number := w; Week.season := season |} in
  ({| GrandCycle.number := q + 1 |}, cycle, season, week,
   {| Day.number := r4; Day.week := week; Day.cycle := cycle |}).

(** Modelled from the spec: what section 3 says of the classes of
    [date_elements], which is not among the sources.  Grand cycles have
    1,718,101 days, cycles are numbered 1..700, seasons 1..7 have 350 days,
    weeks 1..50 have 7 days, and the terminal week 51 closes season 7 with
    the days the cycle has beyond its 2450 seasonal ones.  Cycle lengths
    are irregular; the cumulative table starts at 0, and the days before
    cycle [c] are fewer than [c] cycles of average length, which makes the
    estimate of [cycle_decode] a lower bound. *)
Record ElementsContract : Prop := {
  grand_cycle_domain : forall n, 0 <= n <= 99 -> GrandCycle_valid n = true;
  grand_cycle_prior : forall g,
    GrandCycle_days_prior g = (GrandCycle.number g - 1) * CDateConfig.DAYS_per_GRAND_CYCLE;
  cycle_domain : forall n, 1 <= n <= 700 -> CycleInGrandCycle_valid n = true;
  season_domain : forall n, 1 <= n <= 7 -> Season_valid n = true;
  season_prior : forall s, Season_days_prior s = (Season.number s - 1) * 350;
  week_domain : forall n s,
    1 <= n <= 50 -> 1 <= Season.number s <= 7 -> Week_valid n s = true;
  week_terminal : forall s, Season.number s = 7 -> Week_valid 51 s = true;
  week_prior : forall w, Week_days_prior w = (Week.number w - 1) * 7;
  day_domain : forall n w c,
    1 <= Week.number w <= 50 -> 1 <= n <= 7 -> Day_valid n w c = true;
  day_terminal : forall n w c,
    Week.number w = 51 -> 1 <= CycleInGrandCycle.number c <= 700 -> 1 <= n ->
    days_before (CycleInGrandCycle.number c) + 2450 + n
      <= cycle_end (CycleInGrandCycle.number c) ->
    Day_valid n w c = true;
  first_cycle : days_before 1 = 0;
  cycle_length : forall c, 1 <= c <= 700 -> days_before c + 2450 < cycle_end c;
  average_bound : forall c,
    1 <= c <= 700 -> 700 * days_before c < c * CDateConfig.DAYS_per_GRAND_CYCLE
}.
End Contract.

(** ** A reference calendar

    An instance of the interface on which the theorems are exercised: the
    domains and [days_prior()] values above, with a terminal week of 4 days,
    of 7 days in every seventh cycle and of 8 days in cycle 700, which makes
    the 1,718,101 days of a grand cycle and puts [TEMP_BASELINE_ADR] on the
    first day of cycle 778, as [c_date_config.py] notes. *)

Definition festival_days (c : Z) : Z :=
  if c mod 700 =? 0 then 8 else if c mod 7 =? 0 then 7 else 4.

Definition weekday (n : Z) : string :=
  nth (Z.to_nat (n - 1))
      ["Monday"; "Tuesday"; "Wednesday"; "Thursday"; "Friday"; "Saturday"; "Sunday"]%string
      ""%string.

Definition reference_elements : DateElements := {|
  GrandCycle_valid n := (0 <=? n) && (n <=? 99);
  CycleInGrandCycle_valid n := (1 <=? n) && (n <=? 700);
  Season_valid n := (1 <=? n) && (n <=? 7);
  Week_valid n s :=
    (1 <=? n) && ((n <=? 50) || ((n =? 51) && (Season.number s =? 7)));
  Day_valid n w c :=
    (1 <=? n) && (n <=? (if Week.number w =? 51
                         then festival_days (CycleInGrandCycle.number c) else 7));
  GrandCycle_days_prior g := (GrandCycle.number g - 1) * 1718101;
  CycleInGrandCycle_days_prior c :=
    (CycleInGrandCycle.number c - 1) * 2454 + (CycleInGrandCycle.number c - 1) / 7 * 3;
  Season_days_prior s := (Season.number s - 1) * 350;
  Week_days_prior w := (Week.number w - 1) * 7;
  Day_name d :=
    if Week.number (Day.week d) =? 51 then ("Festival " ++ str (Day.number d))%string
    else weekday (Day.number d);
  Day_short_name d :=
    if Week.number (Day.week d) =? 51 then ("F" ++ str (Day.number d))%string
    else substring 0 3 (weekday (Day.number d));
  Season_name s :=
    if Season.number s =? 7 then "Onset"%string
    else ("Season " ++ str (Season.number s))%string
|}.


(** Dates of the reference calendar: ADR 1, the last day of cycle 1
    (ADR 2454, the fourth day of week 51) and [TEMP_BASELINE_ADR]. *)
Definition date_of (a g c s w d : Z) : CalmarendianDate :=
  let cycle := {| CycleInGrandCycle.number := c |} in
  let season := {| Season.number := s |} in
  let week := {| Week.number := w; Week.season := season |} in
  {| adr := a; grand_cycle := {| GrandCycle.number := g |}; cycle := cycle;
     season := season; week := week;
     day := {| Day.number := d; Day.week := week; Day.cycle := cycle |} |}.

Definition first_day : CalmarendianDate := date_of 1 1 1 1 1 1.
Definition cycle_1_last_day : CalmarendianDate := date_of 2454 1 1 7 51 4.
Definition new_cycle_day_778 : CalmarendianDate := date_of 1907093 2 78 1 1 1.

(** ** Shapes used in the statements *)

Definition between (lo hi c : ascii) : bool := ((lo <=? c) && (c <=? hi))%char.
Definition is_digit (c : ascii) : bool := between "0" "9" c.

(** An absolute cycle reference of three digits, or of four that do not
    start with 0. *)
Definition acr_field (acr : string) : bool :=
  match list_ascii_of_string acr with
  | [a; b; c] => is_digit a && is_digit b && is_digit c
  | [a; b; c; d] => between "1" "9" a && is_digit b && is_digit c && is_digit d
  | _ => false
  end.

(** No era marker, or one of BZ, BH, CE in any case. *)
Definition era_field (era : string) : bool :=
  String.eqb era "" || String.eqb (upper era) "BZ" || String.eqb (upper era) "BH"
  || String.eqb (upper era) "CE".

Fixpoint spaces (n : nat) : string :=
  match n with
  | O => EmptyString
  | S n' => String " " (spaces n')
  end.

Definition csn_string (acr : string) (s w1 w2 d : ascii) (n : nat) (era : string) : string :=
  (acr ++ String "-" (String s (String "-" (String w1 (String w2
       (String "-" (String d (spaces n ++ era))))))))%string.

(** An integral value: an integer, or a float without a fractional part. *)
Definition is_integral (v : PyValue) : bool :=
  match v with
  | PyInt _ => true
  | PyFloat f =>
      match Binary64.floor f, Binary64.floor (SFopp f) with
      | Some lo, Some hi => lo =? - hi
      | _, _ => false
      end
  | PyObject _ => false
  end.

Definition in_adr_range (z : Z) : Prop :=
  CDateConfig.MIN_ADR <= z <= CDateConfig.MAX_ADR.

(** The five elements of a date, as [from_objects] takes them. *)
Definition elements (date : CalmarendianDate)
  : GrandCycle.t * CycleInGrandCycle.t * Season.t * Week.t * Day.t :=
  (grand_cycle date, cycle date, season date, week date, day date).

(** ** Proof steps *)

(** The configuration constants, unfolded for arithmetic. *)
Ltac config :=
  unfold in_adr_range, CDateConfig.MIN_ADR, CDateConfig.MAX_ADR,
    CDateConfig.DAYS_per_GRAND_CYCLE in *.

(** Derivative by a character that is not known: the cases of its class tests. *)
Ltac csn_derive a :=
  unfold CDateConfig.CSN_DATE_STRING_RE, Re.anchored, Re.opt, Re.range, Re.lit, Re.class;
  cbn [Re.deriv Re.nullable Re.times Re.word andb orb];
  repeat match goal with
         | |- context [if ?f a then _ else _] => destruct (f a)
         end;
  cbn [Re.deriv Re.nullable Re.times Re.word andb orb].

(** Derivative by a given character: its class tests are evaluated. *)
Ltac csn_derive_char c :=
  unfold CDateConfig.CSN_DATE_STRING_RE, Re.anchored, Re.opt, Re.range, Re.lit, Re.class;
  cbn [Re.deriv Re.nullable Re.times Re.word andb orb];
  repeat match goal with
         | |- context [if ?f c then _ else _] =>
             let E := fresh "E" in
             destruct (f c) eqn:E; vm_compute in E; try discriminate E; clear E
         end;
  cbn [Re.deriv Re.nullable Re.times Re.word andb orb].

(** * Properties *)

(** ** Binary64 division of small integers

    The quotient of two floats with 53-bit mantissas is rounded from a 53- or
    54-bit integer quotient [q]; the rounded value stays between [2 * (q / 2)]
    and [q + 2] in units of the last place, which is too close to cross an
    integer when the operands are small integers. *)

Module Binary64Facts.
Import Binary64.

Lemma digits2_pos_size p : digits2_pos p = Pos.size p.
Proof. induction p; simpl; congruence. Qed.

Lemma digits2_pos_eq p n : 0 < n -> 2 ^ (n - 1) <= Zpos p < 2 ^ n -> Zpos (digits2_pos p) = n.
Proof.
  intros Hn Hb. rewrite digits2_pos_size.
  assert (Z.log2 (Zpos p) = n - 1) as H.
  { apply Z.log2_unique; [lia|]. replace (Z.succ (n - 1)) with n by lia. exact Hb. }
  assert (Z.log2 (Zpos p) = Zpos (Pos.size p) - 1) by (destruct p; cbn [Z.log2 Pos.size]; rewrite ?Pos2Z.inj_succ; lia).
  lia.
Qed.


Lemma loc_of_record q l : loc_of_shr_record (shr_record_of_loc q l) = l.
Proof. destruct l as [|[]]; reflexivity. Qed.

Lemma shr_m_record q l : shr_m (shr_record_of_loc q l) = q.
Proof. destruct l as [|[]]; reflexivity. Qed.

Lemma shr_fexp_keep q e l :
  Zdigits2 q = 53 -> -1074 <= e ->
  shr_fexp prec emax q e l = (shr_record_of_loc q l, e).
Proof.
  intros Hd He. unfold shr_fexp, fexp, SpecFloat.emin, prec, emax. rewrite Hd.
  replace (Z.max (53 + e - 53) (3 - 1024 - 53) - e) with 0 by lia. reflexivity.
Qed.

Lemma shr_fexp_once q e l :
  Zdigits2 q = 54 -> -1074 <= e ->
  shr_fexp prec emax q e l = (shr_1 (shr_record_of_loc q l), e + 1).
Proof.
  intros Hd He. unfold shr_fexp, fexp, SpecFloat.emin, prec, emax. rewrite Hd.
  replace (Z.max (54 + e - 53) (3 - 1024 - 53) - e) with 1 by lia. reflexivity.
Qed.

Lemma shr_m_shr_1 p l : shr_m (shr_1 (shr_record_of_loc (Zpos p) l)) = Zpos p / 2.
Proof.
  destruct l as [|[]]; destruct p; cbn [shr_record_of_loc shr_1 shr_m orb];
    first [ rewrite Pos2Z.inj_xI | rewrite Pos2Z.inj_xO | idtac ];
    first [ apply Z.div_unique with (r := 1); lia
          | apply Z.div_unique with (r := 0); lia ].
Qed.

Lemma round_nearest_even_bounds q l : q <= round_nearest_even q l <= q + 1.
Proof. destruct l as [|[]]; cbn [round_nearest_even]; try destruct (Z.even q); lia. Qed.

Lemma Zdigits2_eq q n : 0 < n -> 2 ^ (n - 1) <= q < 2 ^ n -> Zdigits2 q = n.
Proof.
  intros Hn Hq. destruct q as [|p|p]; try lia. now apply digits2_pos_eq.
Qed.

(** Second normalisation pass of [binary_round_aux], on a mantissa of 53 bits
    or on the carry 2^53. *)
Lemma renormalise s q e :
  2 ^ 52 <= q <= 2 ^ 53 -> -1074 <= e <= 970 ->
  exists m e2,
    (let '(mrs, e2') := shr_fexp prec emax q e loc_Exact in
     match shr_m mrs with
     | Z0 => S754_zero s
     | Zpos m => if e2' <=? emax - prec then S754_finite s m e2' else S754_infinity s
     | Zneg _ => S754_nan
     end) = S754_finite s m e2 /\ e <= e2 <= e + 1 /\ Zpos m * 2 ^ (e2 - e) = q.
Proof.
  intros Hq He. destruct (Z.eq_dec q (2 ^ 53)) as [->|Hne].
  - rewrite shr_fexp_once by (reflexivity || lia).
    exists (Z.to_pos (2 ^ 52)), (e + 1). cbn -[Z.leb Z.pow Z.add].
    replace (e + 1 <=? emax - prec) with true by (symmetry; apply Z.leb_le; unfold emax, prec; lia).
    replace (e + 1 - e) with 1 by lia. split; [reflexivity|split; [lia|reflexivity]].
  - rewrite shr_fexp_keep by (try apply Zdigits2_eq; lia).
    cbn [shr_record_of_loc shr_m]. destruct q as [|p|p]; try lia.
    exists p, e. replace (e <=? emax - prec) with true by (symmetry; apply Z.leb_le; unfold emax, prec; lia).
    rewrite Z.sub_diag. split; [reflexivity|split; lia].
Qed.

Lemma binary_round_aux_bounds s q e l :
  2 ^ 52 <= q < 2 ^ 54 -> -1074 <= e <= 969 ->
  exists m e2,
    binary_round_aux prec emax s q e l = S754_finite s m e2 /\
    e <= e2 <= e + 2 /\ 2 * (q / 2) <= Zpos m * 2 ^ (e2 - e) <= q + 2.
Proof.
  intros Hq He. unfold binary_round_aux.
  destruct (Z_lt_le_dec q (2 ^ 53)) as [Hlt|Hge].
  - rewrite shr_fexp_keep by (try apply Zdigits2_eq; lia).
    rewrite shr_m_record, loc_of_record.
    pose proof (round_nearest_even_bounds q l) as Hr.
    destruct (renormalise s (round_nearest_even q l) e) as (m & e2 & Heq & He2 & Hv);
      [lia|lia|].
    exists m, e2. split; [exact Heq|]. split; [lia|]. rewrite Hv.
    pose proof (Z.mul_div_le q 2). lia.
  - rewrite shr_fexp_once by (try apply Zdigits2_eq; lia).
    destruct q as [|p|p]; try lia. rewrite shr_m_shr_1.
    set (l' := loc_of_shr_record _).
    pose proof (round_nearest_even_bounds (Zpos p / 2) l') as Hr.
    assert (2 ^ 52 <= Zpos p / 2 < 2 ^ 53) as Hh.
    { split; [apply Z.div_le_lower_bound|apply Z.div_lt_upper_bound]; lia. }
    destruct (renormalise s (round_nearest_even (Zpos p / 2) l') (e + 1))
      as (m & e2 & Heq & He2 & Hv); [lia|lia|].
    exists m, e2. split; [exact Heq|]. split; [lia|].
    replace (e2 - e) with (1 + (e2 - (e + 1))) by lia.
    rewrite Z.pow_add_r by lia. change (2 ^ 1) with 2.
    replace (Zpos m * (2 * 2 ^ (e2 - (e + 1)))) with (2 * (Zpos m * 2 ^ (e2 - (e + 1)))) by ring.
    rewrite Hv. pose proof (Z.mul_div_le (Zpos p) 2).
    pose proof (Z.mul_succ_div_gt (Zpos p) 2). lia.
Qed.

Lemma div_finite s1 s2 mx ex my ey :
  2 ^ 52 <= Zpos mx < 2 ^ 53 -> 2 ^ 52 <= Zpos my < 2 ^ 53 ->
  -1074 <= ex - ey - 53 <= 969 ->
  exists m e2,
    div (S754_finite s1 mx ex) (S754_finite s2 my ey) = S754_finite (xorb s1 s2) m e2 /\
    ex - ey - 53 <= e2 <= ex - ey - 51 /\
    2 * (Zpos mx * 2 ^ 53 / Zpos my / 2) <= Zpos m * 2 ^ (e2 - (ex - ey - 53))
      <= Zpos mx * 2 ^ 53 / Zpos my + 2.
Proof.
  intros Hx Hy He. unfold div, SFdiv, SFdiv_core_binary.
  rewrite (Zdigits2_eq (Zpos mx) 53), (Zdigits2_eq (Zpos my) 53) by lia.
  unfold fexp, SpecFloat.emin, prec, emax.
  replace (Z.min (Z.max (53 + ex - (53 + ey) - 53) (3 - 1024 - 53)) (ex - ey))
    with (ex - ey - 53) by lia.
  replace (ex - ey - (ex - ey - 53)) with 53 by lia.
  cbv match. rewrite Z.shiftl_mul_pow2 by lia.
  pose proof (Zdiv.Z_div_mod_eq_full (Zpos mx * 2 ^ 53) (Zpos my)) as Hdm.
  unfold Z.div, Z.modulo in *.
  destruct (Z.div_eucl (Zpos mx * 2 ^ 53) (Zpos my)) as [q r] eqn:Hqr.
  assert (2 ^ 52 <= q < 2 ^ 54) as Hq.
  { pose proof (Z.div_eucl_eq  (Zpos mx * 2 ^ 53) (Zpos my) ltac:(lia)) as E.
    pose proof (Z.mod_pos_bound (Zpos mx * 2 ^ 53) (Zpos my) ltac:(lia)) as B.
    unfold Z.modulo in B. rewrite Hqr in E, B. nia. }
  destruct (binary_round_aux_bounds (xorb s1 s2) q (ex - ey - 53) (new_location (Zpos my) r))
    as (m & e2 & Heq & He2 & Hv); [lia|lia|].
  exists m, e2. split; [exact Heq|]. split; [lia|]. exact Hv.
Qed.

Lemma iter_xO_pow p k : Zpos (Pos.iter xO p k) = Zpos p * 2 ^ Zpos k.
Proof.
  induction k as [|k IH] using Pos.peano_ind.
  - cbn [Pos.iter]. rewrite Pos2Z.inj_xO. change (2 ^ 1) with 2. ring.
  - rewrite Pos.iter_succ, Pos2Z.inj_xO, IH, Pos2Z.inj_succ, Z.pow_succ_r by lia. ring.
Qed.

Lemma scale_bounds z d :
  1 <= d <= 53 -> 2 ^ (d - 1) <= z < 2 ^ d -> 2 ^ 52 <= z * 2 ^ (53 - d) < 2 ^ 53.
Proof.
  intros Hd Hz.
  assert (2 ^ 52 = 2 ^ (d - 1) * 2 ^ (53 - d)) as E52
    by (rewrite <- Z.pow_add_r by lia; f_equal; lia).
  assert (2 ^ 53 = 2 ^ d * 2 ^ (53 - d)) as E53
    by (rewrite <- Z.pow_add_r by lia; f_equal; lia).
  assert (0 < 2 ^ (53 - d)) by (apply Z.pow_pos_nonneg; lia).
  rewrite E52, E53. split.
  - apply Z.mul_le_mono_nonneg_r; lia.
  - apply Z.mul_lt_mono_pos_r; lia.
Qed.

Lemma binary_round_exact s p :
  Zpos p < 2 ^ 53 ->
  exists m d,
    binary_round prec emax s p 0 = S754_finite s m (d - 53) /\
    1 <= d <= 53 /\ 2 ^ (d - 1) <= Zpos p < 2 ^ d /\ Zpos m = Zpos p * 2 ^ (53 - d).
Proof.
  intros Hp. set (d := Zpos (digits2_pos p)).
  assert (2 ^ (d - 1) <= Zpos p < 2 ^ d) as Hd.
  { unfold d. rewrite digits2_pos_size.
    assert (Zpos p < 2 ^ Zpos (Pos.size p)) as G
      by (pose proof (Pos.size_gt p); lia).
    assert (2 ^ Zpos (Pos.size p) <= 2 * Zpos p) as L
      by (pose proof (Pos.size_le p); lia).
    replace (Zpos (Pos.size p)) with (Z.succ (Zpos (Pos.size p) - 1)) in L at 1 by lia.
    rewrite Z.pow_succ_r in L by lia. lia. }
  assert (1 <= d <= 53) as Hd53.
  { split; [unfold d; lia|].
    destruct (Z_le_gt_dec d 53) as [|Hgt]; [assumption|exfalso].
    assert (2 ^ 53 <= 2 ^ (d - 1)) by (apply Z.pow_le_mono_r; lia). lia. }
  unfold binary_round, shl_align, fexp, SpecFloat.emin, prec, emax. fold d.
  clearbody d.
  replace (Z.max (d + 0 - 53) (3 - 1024 - 53) - 0) with (d - 53) by lia.
  replace (Z.max (d + 0 - 53) (3 - 1024 - 53)) with (d - 53) by lia.
  destruct (Z.eq_dec d 53) as [E|NE].
  - subst d. change (53 - 53) with 0. cbv iota. change (2 ^ (53 - 1)) with (2 ^ 52) in Hd.
    exists p, 53. unfold binary_round_aux.
    rewrite shr_fexp_keep by (try apply Zdigits2_eq; lia).
    cbn [shr_record_of_loc shr_m loc_of_shr_record round_nearest_even].
    rewrite shr_fexp_keep by (try apply Zdigits2_eq; lia).
    cbn [shr_record_of_loc shr_m]. split; [reflexivity|].
    change (2 ^ (53 - 53)) with 1. lia.
  - destruct (d - 53) as [|k|k] eqn:Ek; try lia.
    exists (Pos.iter xO p k), d.
    assert (Zpos (Pos.iter xO p k) = Zpos p * 2 ^ (53 - d)) as Hm.
    { rewrite iter_xO_pow. f_equal. f_equal. lia. }
    assert (2 ^ 52 <= Zpos (Pos.iter xO p k) < 2 ^ 53) as Hb.
    { rewrite Hm. apply scale_bounds; assumption. }
    unfold binary_round_aux.
    rewrite shr_fexp_keep by (try apply Zdigits2_eq; lia).
    cbn [shr_record_of_loc shr_m loc_of_shr_record round_nearest_even].
    rewrite shr_fexp_keep by (try apply Zdigits2_eq; lia).
    cbn [shr_record_of_loc shr_m].
    replace (Zneg k <=? 1024 - 53) with true by (symmetry; apply Z.leb_le; lia).
    rewrite <- Ek. split; [reflexivity|]. split; [lia|]. split; [lia|exact Hm].
Qed.

Lemma of_int_pos z :
  0 < z < 2 ^ 53 ->
  exists m d,
    of_int z = S754_finite false m (d - 53) /\
    1 <= d <= 53 /\ 2 ^ (d - 1) <= z < 2 ^ d /\ Zpos m = z * 2 ^ (53 - d).
Proof.
  intros Hz. destruct z as [|p|p]; try lia. apply binary_round_exact. lia.
Qed.

Lemma of_int_neg z :
  0 < z < 2 ^ 53 ->
  exists m d,
    of_int (- z) = S754_finite true m (d - 53) /\
    1 <= d <= 53 /\ 2 ^ (d - 1) <= z < 2 ^ d /\ Zpos m = z * 2 ^ (53 - d).
Proof.
  intros Hz. destruct z as [|p|p]; try lia. apply binary_round_exact. lia.
Qed.

Section FloorOfQuotient.
Variables (mx my : positive) (ex ey K : Z).
Let e := ex - ey - 53.
Hypothesis Hmx : 2 ^ 52 <= Zpos mx < 2 ^ 53.
Hypothesis Hmy : 2 ^ 52 <= Zpos my < 2 ^ 53.
Hypothesis He : -1074 <= e <= -3.
Hypothesis HK : 0 <= K.
Hypothesis Hup : Zpos mx * 2 ^ 53 + 2 * Zpos my < (K + 1) * 2 ^ (- e) * Zpos my.

Let q := Zpos mx * 2 ^ 53 / Zpos my.

Lemma quotient_upper : q + 2 < (K + 1) * 2 ^ (- e).
Proof.
  pose proof (Z.mul_div_le (Zpos mx * 2 ^ 53) (Zpos my) ltac:(lia)) as Hq.
  fold q in Hq.
  apply Z.mul_lt_mono_pos_r with (p := Zpos my); lia.
Qed.

Lemma quotient_lower :
  K * 2 ^ (- e) * Zpos my <= Zpos mx * 2 ^ 53 -> K * 2 ^ (- e) <= 2 * (q / 2).
Proof.
  intros Hlo.
  assert (2 ^ (- e) = 2 * 2 ^ (- e - 1)) as EP.
  { rewrite <- Z.pow_succ_r by lia. f_equal. lia. }
  assert (K * 2 ^ (- e) <= q) as Hq.
  { apply Z.div_le_lower_bound; lia. }
  rewrite EP in *.
  assert (K * 2 ^ (- e - 1) <= q / 2) by (apply Z.div_le_lower_bound; lia).
  lia.
Qed.

Lemma split_pow e2 : e <= e2 <= -1 -> 2 ^ (- e) = 2 ^ (- e2) * 2 ^ (e2 - e).
Proof. intros H. rewrite <- Z.pow_add_r by lia. f_equal. lia. Qed.

Lemma floor_div_pos :
  K * 2 ^ (- e) * Zpos my <= Zpos mx * 2 ^ 53 ->
  floor (div (S754_finite false mx ex) (S754_finite false my ey)) = Some K.
Proof.
  intros Hlo.
  destruct (div_finite false false mx ex my ey Hmx Hmy) as (m & e2 & Heq & He2 & Hv);
    [fold e; lia|].
  fold e in He2, Hv. fold q in Hv.
  pose proof quotient_upper as Hu. pose proof (quotient_lower Hlo) as Hl.
  rewrite Heq. cbn [xorb floor].
  replace (0 <=? e2) with false by (symmetry; apply Z.leb_gt; lia).
  f_equal. rewrite (split_pow e2) in Hu, Hl by lia.
  assert (0 < 2 ^ (e2 - e)) by (apply Z.pow_pos_nonneg; lia).
  assert (0 < 2 ^ (- e2)) by (apply Z.pow_pos_nonneg; lia).
  symmetry. apply Z.div_unique with (r := Zpos m - K * 2 ^ (- e2)); [left|ring].
  split.
  - apply Z.le_0_sub. apply Z.mul_le_mono_pos_r with (p := 2 ^ (e2 - e)); lia.
  - apply Z.lt_sub_lt_add_l.
    apply Z.mul_lt_mono_pos_r with (p := 2 ^ (e2 - e)); lia.
Qed.

Lemma floor_div_neg :
  (K * 2 ^ (- e) + 2) * Zpos my <= Zpos mx * 2 ^ 53 ->
  floor (div (S754_finite true mx ex) (S754_finite false my ey)) = Some (- K - 1).
Proof.
  intros Hlo.
  destruct (div_finite true false mx ex my ey Hmx Hmy) as (m & e2 & Heq & He2 & Hv);
    [fold e; lia|].
  fold e in He2, Hv. fold q in Hv.
  pose proof quotient_upper as Hu.
  assert (K * 2 ^ (- e) + 2 <= q) as Hq by (apply Z.div_le_lower_bound; lia).
  pose proof (Z.mul_succ_div_gt q 2 ltac:(lia)) as Hh.
  rewrite Heq. cbn [xorb floor].
  replace (0 <=? e2) with false by (symmetry; apply Z.leb_gt; lia).
  f_equal. rewrite (split_pow e2) in Hu, Hq by lia.
  assert (0 < 2 ^ (e2 - e)) by (apply Z.pow_pos_nonneg; lia).
  assert (0 < 2 ^ (- e2)) by (apply Z.pow_pos_nonneg; lia).
  symmetry. apply Z.div_unique with (r := (K + 1) * 2 ^ (- e2) - Zpos m);
    [left|rewrite <- Pos2Z.opp_pos; ring].
  split.
  - apply Z.le_0_sub. apply Z.lt_le_incl.
    apply Z.mul_lt_mono_pos_r with (p := 2 ^ (e2 - e)); lia.
  - assert (K * 2 ^ (- e2) < Zpos m); [|lia].
    apply Z.mul_lt_mono_pos_r with (p := 2 ^ (e2 - e)); lia.
Qed.
End FloorOfQuotient.

Section IntQuotient.
Variables (x d : Z) (mx my : positive) (dx dd : Z).
Hypothesis Hx : 0 < x < 2 ^ 51.
Hypothesis Hdx : 1 <= dx <= 53 /\ 2 ^ (dx - 1) <= x < 2 ^ dx /\ Zpos mx = x * 2 ^ (53 - dx).
Hypothesis Hdd : 1 <= dd <= 53 /\ 2 ^ (dd - 1) <= d < 2 ^ dd /\ Zpos my = d * 2 ^ (53 - dd).

Lemma digits_small : dx <= 51.
Proof.
  destruct (Z_le_gt_dec dx 51) as [|Hgt]; [assumption|exfalso].
  assert (2 ^ 51 <= 2 ^ (dx - 1)) by (apply Z.pow_le_mono_r; lia). lia.
Qed.

Lemma mantissa_x : 2 ^ 52 <= Zpos mx < 2 ^ 53.
Proof. destruct Hdx as (? & ? & ->). now apply scale_bounds. Qed.

Lemma mantissa_d : 2 ^ 52 <= Zpos my < 2 ^ 53.
Proof. destruct Hdd as (? & ? & ->). now apply scale_bounds. Qed.

Lemma scale_link :
  2 ^ (- (dx - 53 - (dd - 53) - 53)) * Zpos my = d * (2 ^ 53 * 2 ^ (53 - dx)).
Proof.
  destruct Hdd as (? & ? & ->). pose proof digits_small.
  replace (- (dx - 53 - (dd - 53) - 53)) with (53 + (53 - dx) - (53 - dd)) by lia.
  replace (2 ^ 53 * 2 ^ (53 - dx)) with (2 ^ (53 + (53 - dx) - (53 - dd)) * 2 ^ (53 - dd)).
  - ring.
  - rewrite <- !Z.pow_add_r by lia. f_equal. lia.
Qed.

Lemma scale_large : 2 * Zpos my < 2 ^ 53 * 2 ^ (53 - dx).
Proof.
  pose proof mantissa_d. pose proof digits_small.
  assert (2 ^ 2 <= 2 ^ (53 - dx)) by (apply Z.pow_le_mono_r; lia).
  change (2 ^ 2) with 4 in *. lia.
Qed.
End IntQuotient.

Lemma floor_truediv_nonneg x d :
  0 <= x < 2 ^ 51 -> 0 < d < 2 ^ 53 ->
  floor (div (of_int x) (of_int d)) = Some (x / d).
Proof.
  intros Hx Hd.
  destruct (of_int_pos d Hd) as (my & dd & Ed & Hdd).
  destruct (Z.eq_dec x 0) as [->|Hnz].
  - rewrite Ed. reflexivity.
  - destruct (of_int_pos x ltac:(lia)) as (mx & dx & Ex & Hdx).
    rewrite Ex, Ed.
    pose proof (digits_small x d mx my dx dd ltac:(lia) Hdx Hdd) as Hs.
    pose proof (scale_link x d mx my dx dd ltac:(lia) Hdx Hdd) as Hl.
    pose proof (scale_large x d mx my dx dd ltac:(lia) Hdx Hdd) as Hg.
    pose proof (Z.mul_div_le x d ltac:(lia)) as Hq1.
    pose proof (Z.mul_succ_div_gt x d ltac:(lia)) as Hq2.
    assert (0 <= x / d) as Hq0 by (apply Z.div_pos; lia).
    assert (0 < 2 ^ 53 * 2 ^ (53 - dx)) as Hpos.
    { apply Z.mul_pos_pos; apply Z.pow_pos_nonneg; lia. }
    destruct Hdx as (Hdx1 & Hdx2 & Hmx).
    apply floor_div_pos.
    + rewrite Hmx. now apply scale_bounds.
    + eapply mantissa_d; eauto.
    + lia.
    + rewrite <- Z.mul_assoc, Hl, Hmx.
      assert ((x + 1) * (2 ^ 53 * 2 ^ (53 - dx)) <= (x / d + 1) * d * (2 ^ 53 * 2 ^ (53 - dx))).
      { apply Z.mul_le_mono_nonneg_r; lia. }
      lia.
    + rewrite <- Z.mul_assoc, Hl, Hmx.
      assert (x / d * d * (2 ^ 53 * 2 ^ (53 - dx)) <= x * (2 ^ 53 * 2 ^ (53 - dx))).
      { apply Z.mul_le_mono_nonneg_r; lia. }
      lia.
Qed.

Lemma floor_truediv_neg x d :
  0 < x < d -> x < 2 ^ 51 -> d < 2 ^ 53 ->
  floor (div (of_int (- x)) (of_int d)) = Some (- 1).
Proof.
  intros Hx Hx51 Hd.
  destruct (of_int_pos d ltac:(lia)) as (my & dd & Ed & Hdd).
  destruct (of_int_neg x ltac:(lia)) as (mx & dx & Ex & Hdx).
  rewrite Ex, Ed.
  pose proof (digits_small x d mx my dx dd ltac:(lia) Hdx Hdd) as Hs.
  pose proof (scale_link x d mx my dx dd ltac:(lia) Hdx Hdd) as Hl.
  pose proof (scale_large x d mx my dx dd ltac:(lia) Hdx Hdd) as Hg.
  pose proof (mantissa_x x mx dx Hdx) as Bx.
  pose proof (mantissa_d d my dd Hdd) as Bd.
  assert (0 < 2 ^ 53 * 2 ^ (53 - dx)) as Hpos.
  { apply Z.mul_pos_pos; apply Z.pow_pos_nonneg; lia. }
  destruct Hdx as (Hdx1 & Hdx2 & Hmx).
  change (- 1) with (- 0 - 1).
  apply floor_div_neg; try assumption; try lia.
  - rewrite Z.add_0_l, Z.mul_1_l, Hl, Hmx.
    assert ((x + 1) * (2 ^ 53 * 2 ^ (53 - dx)) <= d * (2 ^ 53 * 2 ^ (53 - dx))).
    { apply Z.mul_le_mono_nonneg_r; lia. }
    lia.
Qed.

Lemma DAYS_per_CYCLE_value :
  CDateConfig.DAYS_per_CYCLE = S754_finite false 5397348649124495 (-41).
Proof. vm_compute. reflexivity. Qed.

Lemma estimate_arith days :
  0 < days <= 1718101 ->
  let K := days * 700 / 1718101 in
  K * 5397348649124495 <= days * 2 ^ 41 /\
  1536 <= (K + 1) * 5397348649124495 - days * 2 ^ 41.
Proof.
  intros H K.
  pose proof (Z.mul_div_le (days * 700) 1718101 ltac:(lia)) as Hlo.
  pose proof (Z.mul_succ_div_gt (days * 700) 1718101 ltac:(lia)) as Hhi.
  fold K in Hlo, Hhi. change (2 ^ 41) with 2199023255552. lia.
Qed.

Lemma floor_estimate days :
  0 <= days <= 1718101 ->
  floor (div (of_int days) CDateConfig.DAYS_per_CYCLE) = Some (days * 700 / 1718101).
Proof.
  intros Hd. rewrite DAYS_per_CYCLE_value.
  destruct (Z.eq_dec days 0) as [->|Hnz]; [reflexivity|].
  destruct (of_int_pos days ltac:(lia)) as (mx & dx & Ex & Hdx1 & Hdx2 & Hmx).
  rewrite Ex.
  assert (dx <= 21) as Hs.
  { destruct (Z_le_gt_dec dx 21) as [|Hgt]; [assumption|exfalso].
    assert (2 ^ 21 <= 2 ^ (dx - 1)) by (apply Z.pow_le_mono_r; lia). lia. }
  destruct (estimate_arith days ltac:(lia)) as [F1 F2].
  set (K := days * 700 / 1718101) in *.
  assert (0 <= K) by (apply Z.div_pos; lia).
  set (a := 2 ^ (53 - dx)) in *.
  assert (2 ^ 32 <= a) as Ha by (apply Z.pow_le_mono_r; lia).
  assert (2 ^ (- (dx - 53 - -41 - 53)) = 2 ^ 12 * a) as EP.
  { unfold a. rewrite <- Z.pow_add_r by lia. f_equal. lia. }
  change (2 ^ 32) with 4294967296 in Ha. change (2 ^ 41) with 2199023255552 in *.
  apply floor_div_pos.
  - rewrite Hmx. now apply scale_bounds.
  - lia.
  - lia.
  - rewrite EP, Hmx. change (2 ^ 12) with 4096. change (2 ^ 53) with 9007199254740992.
    assert (4294967296 * 1536 <= a * ((K + 1) * 5397348649124495 - days * 2199023255552))
      by (apply Z.mul_le_mono_nonneg; lia).
    lia.
  - rewrite EP, Hmx. change (2 ^ 12) with 4096. change (2 ^ 53) with 9007199254740992.
    assert (a * (K * 5397348649124495) <= a * (days * 2199023255552))
      by (apply Z.mul_le_mono_nonneg_l; lia).
    lia.
Qed.

End Binary64Facts.

(** ** [math.floor] of the quotients taken by the engine *)

Lemma math_floor_of_floor f z : Binary64.floor f = Some z -> math_floor f = Ok z.
Proof. destruct f; cbn; intros H; try discriminate; now injection H as ->. Qed.

Lemma floor_truediv x d :
  0 <= x < 2 ^ 51 -> 0 < d < 2 ^ 53 -> math_floor (truediv x d) = Ok (x / d).
Proof.
  intros Hx Hd. apply math_floor_of_floor.
  now apply Binary64Facts.floor_truediv_nonneg.
Qed.

Lemma floor_grand_cycle a :
  CDateConfig.MIN_ADR <= a <= CDateConfig.MAX_ADR ->
  math_floor (truediv (a - 1) CDateConfig.DAYS_per_GRAND_CYCLE)
  = Ok ((a - 1) / CDateConfig.DAYS_per_GRAND_CYCLE).
Proof.
  unfold CDateConfig.MIN_ADR, CDateConfig.MAX_ADR, CDateConfig.DAYS_per_GRAND_CYCLE.
  intros Ha. destruct (Z_le_gt_dec 0 (a - 1)) as [Hpos|Hneg].
  - apply floor_truediv; lia.
  - destruct (Z.eq_dec (a - 1) (- 1718101)) as [->|Hne]; [vm_compute; reflexivity|].
    replace ((a - 1) / 1718101) with (- 1).
    + apply math_floor_of_floor. replace (a - 1) with (- (1 - a)) by lia.
      apply Binary64Facts.floor_truediv_neg; lia.
    + apply Z.div_unique with (r := a - 1 + 1718101); lia.
Qed.

Lemma floor_cycle_estimate days :
  0 <= days <= CDateConfig.DAYS_per_GRAND_CYCLE ->
  math_floor (Binary64.div (Binary64.of_int days) CDateConfig.DAYS_per_CYCLE)
  = Ok (days * 700 / CDateConfig.DAYS_per_GRAND_CYCLE).
Proof.
  intros Hd. apply math_floor_of_floor. now apply Binary64Facts.floor_estimate.
Qed.

(** ** The loop of [cycle_decode] and the telescoping sum *)

(** The loop stops by itself within [700 - cycle] rounds: more fuel changes
    nothing. *)
Lemma cycle_scan_fuel {E : DateElements} fuel c days :
  (Z.to_nat (700 - c) <= fuel)%nat ->
  cycle_scan fuel c days = cycle_scan (Z.to_nat (700 - c)) c days.
Proof.
  revert c. induction fuel as [|fuel IH]; intros c Hf.
  - replace (Z.to_nat (700 - c)) with 0%nat by lia. reflexivity.
  - destruct (c <? 700) eqn:Hc.
    + apply Z.ltb_lt in Hc.
      replace (Z.to_nat (700 - c)) with (S (Z.to_nat (700 - (c + 1)))) by lia.
      cbn [cycle_scan]. replace (c <? 700) with true by (symmetry; apply Z.ltb_lt; lia).
      destruct (new_CycleInGrandCycle (c + 1)) as [next|e]; cbn [bind]; [|reflexivity].
      destruct (CycleInGrandCycle_days_prior next <? days); [|reflexivity].
      apply IH. lia.
    + apply Z.ltb_ge in Hc. replace (Z.to_nat (700 - c)) with 0%nat by lia.
      cbn [cycle_scan]. replace (c <? 700) with false by (symmetry; apply Z.ltb_ge; lia).
      reflexivity.
Qed.

(** Whatever the constructors accept, the elements that [elements_from_adr]
    returns add up to the ADR, as soon as a grand cycle counts 1,718,101 days. *)
Lemma elements_from_adr_sum {E : DateElements} a g c s w d :
  (forall x, GrandCycle_days_prior x
             = (GrandCycle.number x - 1) * CDateConfig.DAYS_per_GRAND_CYCLE) ->
  elements_from_adr a = Ok (g, c, s, w, d) ->
  GrandCycle_days_prior g + CycleInGrandCycle_days_prior c + Season_days_prior s
  + Week_days_prior w + Day.number d = a.
Proof.
  intros Hgc. unfold elements_from_adr, new_GrandCycle, new_CycleInGrandCycle,
    new_Season, new_Week, new_Day.
  repeat match goal with
         | |- context [bind (if ?b then _ else _) _] => destruct b; cbn [bind]
         | |- context [bind ?r _] => destruct r; cbn [bind]
         | |- Raise _ = Ok _ -> _ => discriminate
         end.
  intros H. injection H as <- <- <- <- <-. rewrite Hgc.
  cbn [GrandCycle.number Day.number]. lia.
Qed.

(** ** The cycle search *)

Section CycleSearch.
Context {E : DateElements}.
Hypothesis contract : ElementsContract E.

Lemma days_before_step c :
  1 <= c < 700 -> days_before E c + 2450 < days_before E (c + 1).
Proof.
  intros Hc. pose proof (cycle_length E contract c ltac:(lia)) as H.
  unfold cycle_end in H. replace (c =? 700) with false in H; [exact H|].
  symmetry. apply Z.eqb_neq. lia.
Qed.

Lemma days_before_mono a b :
  1 <= a -> a <= b -> b <= 700 -> days_before E a <= days_before E b.
Proof.
  intros Ha Hab Hb.
  replace b with (a + Z.of_nat (Z.to_nat (b - a))) in * by lia.
  induction (Z.to_nat (b - a)) as [|n IH].
  - rewrite Z.add_0_r. lia.
  - rewrite Nat2Z.inj_succ in *.
    pose proof (days_before_step (a + Z.of_nat n) ltac:(lia)).
    replace (a + Z.succ (Z.of_nat n)) with (a + Z.of_nat n + 1) by lia.
    specialize (IH ltac:(lia) ltac:(lia)). lia.
Qed.

Lemma holding_cycle_from c days :
  1 <= c <= 700 -> days_before E c < days -> days <= CDateConfig.DAYS_per_GRAND_CYCLE ->
  exists T, c <= T /\ holds E T days.
Proof.
  intros Hc. remember (Z.to_nat (700 - c)) as n eqn:Hn.
  revert c Hc Hn. induction n as [|n IH]; intros c Hc Hn Hlo Hhi.
  - assert (c = 700) as -> by lia. exists 700. split; [lia|].
    split; [lia|]. split; [exact Hlo|]. exact Hhi.
  - destruct (Z_le_gt_dec days (days_before E (c + 1))) as [Hle|Hgt].
    + exists c. split; [lia|]. split; [lia|]. split; [exact Hlo|].
      unfold cycle_end. replace (c =? 700) with false; [exact Hle|].
      symmetry. apply Z.eqb_neq. lia.
    + destruct (IH (c + 1) ltac:(lia) ltac:(lia) ltac:(lia) Hhi) as (T & HT & HH).
      exists T. split; [lia|exact HH].
Qed.

Lemma holding_cycle days :
  1 <= days <= CDateConfig.DAYS_per_GRAND_CYCLE -> exists T, holds E T days.
Proof.
  intros Hd.
  destruct (holding_cycle_from 1 days ltac:(lia)) as (T & _ & HT).
  - rewrite (first_cycle E contract). lia.
  - lia.
  - now exists T.
Qed.

Lemma holds_unique T1 T2 days : holds E T1 days -> holds E T2 days -> T1 = T2.
Proof.
  intros (H1 & L1 & U1) (H2 & L2 & U2).
  destruct (Z.lt_trichotomy T1 T2) as [Hlt|[Heq|Hgt]]; [exfalso|exact Heq|exfalso].
  - pose proof (days_before_mono (T1 + 1) T2 ltac:(lia) ltac:(lia) ltac:(lia)).
    unfold cycle_end in U1. replace (T1 =? 700) with false in U1; [lia|].
    symmetry. apply Z.eqb_neq. lia.
  - pose proof (days_before_mono (T2 + 1) T1 ltac:(lia) ltac:(lia) ltac:(lia)).
    unfold cycle_end in U2. replace (T2 =? 700) with false in U2; [lia|].
    symmetry. apply Z.eqb_neq. lia.
Qed.

Lemma new_CycleInGrandCycle_ok n :
  1 <= n <= 700 -> new_CycleInGrandCycle n = Ok {| CycleInGrandCycle.number := n |}.
Proof.
  intros Hn. unfold new_CycleInGrandCycle.
  now rewrite (cycle_domain E contract n Hn).
Qed.

Lemma cycle_scan_finds T days fuel c :
  holds E T days -> 0 <= c <= T -> (Z.to_nat (700 - c) <= fuel)%nat ->
  cycle_scan fuel c days = Ok T.
Proof.
  intros (HT & Hlo & Hhi). revert c.
  induction fuel as [|fuel IH]; intros c Hc Hfuel.
  - cbn. f_equal. lia.
  - cbn [cycle_scan]. destruct (c <? 700) eqn:Hc700.
    + apply Z.ltb_lt in Hc700. rewrite new_CycleInGrandCycle_ok by lia.
      cbn [bind]. fold (days_before E (c + 1)).
      destruct (Z.eq_dec c T) as [->|Hne].
      * unfold cycle_end in Hhi. replace (T =? 700) with false in Hhi
          by (symmetry; apply Z.eqb_neq; lia).
        replace (days_before E (T + 1) <? days) with false; [reflexivity|].
        symmetry. apply Z.ltb_ge. exact Hhi.
      * pose proof (days_before_mono (c + 1) T ltac:(lia) ltac:(lia) ltac:(lia)).
        replace (days_before E (c + 1) <? days) with true
          by (symmetry; apply Z.ltb_lt; lia).
        apply IH; lia.
    + apply Z.ltb_ge in Hc700. f_equal. lia.
Qed.

Lemma estimate_below_cycle T days :
  holds E T days -> 0 <= days * 700 / CDateConfig.DAYS_per_GRAND_CYCLE <= T.
Proof.
  intros (HT & Hlo & Hhi).
  pose proof (first_cycle E contract) as H1.
  pose proof (days_before_mono 1 T ltac:(lia) ltac:(lia) ltac:(lia)) as Hm.
  split; [apply Z.div_pos; unfold CDateConfig.DAYS_per_GRAND_CYCLE; lia|].
  assert (days * 700 < (T + 1) * CDateConfig.DAYS_per_GRAND_CYCLE) as Hlt.
  { unfold cycle_end in Hhi. destruct (T =? 700) eqn:HT700.
    - apply Z.eqb_eq in HT700. subst T. unfold CDateConfig.DAYS_per_GRAND_CYCLE in *. lia.
    - apply Z.eqb_neq in HT700.
      pose proof (average_bound E contract (T + 1) ltac:(lia)). lia. }
  assert (days * 700 / CDateConfig.DAYS_per_GRAND_CYCLE < T + 1); [|lia].
  apply Z.div_lt_upper_bound; unfold CDateConfig.DAYS_per_GRAND_CYCLE in *; lia.
Qed.

Lemma holds_range T days :
  holds E T days -> 1 <= days <= CDateConfig.DAYS_per_GRAND_CYCLE.
Proof.
  intros (HT & Hlo & Hhi).
  pose proof (first_cycle E contract) as H1.
  pose proof (days_before_mono 1 T ltac:(lia) ltac:(lia) ltac:(lia)) as Hm.
  split; [lia|].
  unfold cycle_end in Hhi. destruct (T =? 700) eqn:HT700; [exact Hhi|].
  apply Z.eqb_neq in HT700.
  pose proof (average_bound E contract (T + 1) ltac:(lia)).
  pose proof (days_before_mono (T + 1) 700 ltac:(lia) ltac:(lia) ltac:(lia)).
  pose proof (cycle_length E contract 700 ltac:(lia)) as H700.
  unfold cycle_end in H700. cbn in H700. lia.
Qed.

Lemma cycle_decode_holds T days : holds E T days -> cycle_decode days = Ok T.
Proof.
  intros HT. pose proof (holds_range T days HT) as Hr.
  pose proof (estimate_below_cycle T days HT) as He.
  unfold cycle_decode. rewrite floor_cycle_estimate by lia. cbn [bind].
  apply cycle_scan_finds; [exact HT|exact He|lia].
Qed.
End CycleSearch.

(** ** Decomposition of an ADR *)

Lemma grand_cycle_residue a :
  let q := (a - 1) / CDateConfig.DAYS_per_GRAND_CYCLE in
  1 <= a - q * CDateConfig.DAYS_per_GRAND_CYCLE <= CDateConfig.DAYS_per_GRAND_CYCLE.
Proof.
  unfold CDateConfig.DAYS_per_GRAND_CYCLE. cbv zeta.
  pose proof (Z.mul_div_le (a - 1) 1718101 ltac:(lia)).
  pose proof (Z.mul_succ_div_gt (a - 1) 1718101 ltac:(lia)). lia.
Qed.

Lemma grand_cycle_number_range a :
  CDateConfig.MIN_ADR <= a <= CDateConfig.MAX_ADR ->
  0 <= (a - 1) / CDateConfig.DAYS_per_GRAND_CYCLE + 1 <= 99.
Proof.
  unfold CDateConfig.MIN_ADR, CDateConfig.MAX_ADR, CDateConfig.DAYS_per_GRAND_CYCLE.
  intros Ha.
  pose proof (Z.mul_div_le (a - 1) 1718101 ltac:(lia)).
  pose proof (Z.mul_succ_div_gt (a - 1) 1718101 ltac:(lia)). lia.
Qed.

(** Season, week and day of the [r]-th day of a cycle of [len] days. *)
Lemma season_week_day r len :
  1 <= r <= len -> 2450 < len ->
  let s := Z.min ((r - 1) / 350 + 1) 7 in
  let r3 := r - (s - 1) * 350 in
  let w := Z.min ((r3 - 1) / 7 + 1) 51 in
  let r4 := r3 - (w - 1) * 7 in
  1 <= s <= 7 /\ 1 <= r3 <= len /\ 1 <= w <= 51 /\ (w = 51 -> s = 7) /\
  1 <= r4 /\ (w <= 50 -> r4 <= 7) /\ (w = 51 -> r4 + 2450 = r).
Proof.
  intros Hr Hlen. cbv zeta.
  pose proof (Z.mul_div_le (r - 1) 350 ltac:(lia)) as A1.
  pose proof (Z.mul_succ_div_gt (r - 1) 350 ltac:(lia)) as A2.
  set (q := (r - 1) / 350) in *.
  set (s := Z.min (q + 1) 7).
  assert (1 <= s <= 7) as Hs by (unfold s; lia).
  assert (1 <= r - (s - 1) * 350) as Hr3 by (unfold s; lia).
  assert (s < 7 -> r - (s - 1) * 350 <= 350) as Hr3' by (unfold s; lia).
  set (r3 := r - (s - 1) * 350) in *.
  pose proof (Z.mul_div_le (r3 - 1) 7 ltac:(lia)) as B1.
  pose proof (Z.mul_succ_div_gt (r3 - 1) 7 ltac:(lia)) as B2.
  set (p := (r3 - 1) / 7) in *.
  set (w := Z.min (p + 1) 51).
  assert (1 <= w <= 51) as Hw by (unfold w; lia).
  repeat split; lia.
Qed.

Section Decomposition.
Context {E : DateElements}.
Hypothesis contract : ElementsContract E.

Lemma elements_from_adr_decomposed a :
  CDateConfig.MIN_ADR <= a <= CDateConfig.MAX_ADR ->
  exists T,
    holds E T (a - (a - 1) / CDateConfig.DAYS_per_GRAND_CYCLE
                   * CDateConfig.DAYS_per_GRAND_CYCLE)
    /\ elements_from_adr a = Ok (decomposed E a T).
Proof.
  intros Ha.
  pose proof (grand_cycle_residue a) as Hres. cbv zeta in Hres.
  pose proof (grand_cycle_number_range a Ha) as Hgc.
  destruct (holding_cycle contract _ Hres) as (T & HT).
  exists T. split; [exact HT|].
  unfold elements_from_adr, decomposed.
  rewrite (floor_grand_cycle a Ha). cbn [bind].
  unfold new_GrandCycle. rewrite (grand_cycle_domain E contract _ Hgc).
  cbn [bind GrandCycle.number].
  set (q := (a - 1) / CDateConfig.DAYS_per_GRAND_CYCLE) in *.
  replace (q + 1 - 1) with q by lia.
  set (r1 := a - q * CDateConfig.DAYS_per_GRAND_CYCLE) in *.
  rewrite (cycle_decode_holds contract T r1 HT). cbn [bind].
  destruct HT as (HT & Hlo & Hhi).
  rewrite (new_CycleInGrandCycle_ok contract T HT). cbn [bind].
  fold (days_before E T).
  pose proof (cycle_length E contract T HT) as Hlen.
  destruct (season_week_day (r1 - days_before E T) (cycle_end E T - days_before E T)
              ltac:(lia) ltac:(lia)) as (Hs & Hr3 & Hw & Hw51 & Hr4 & Hd7 & Hd51).
  pose proof (days_before_mono contract 1 T ltac:(lia) ltac:(lia) ltac:(lia)) as Hdb.
  rewrite (first_cycle E contract) in Hdb.
  assert (1 <= r1 - days_before E T <= CDateConfig.DAYS_per_GRAND_CYCLE) as Hr by lia.
  set (r := r1 - days_before E T) in *.
  assert (cycle_end E T <= CDateConfig.DAYS_per_GRAND_CYCLE) as Hend.
  { unfold cycle_end. destruct (T =? 700) eqn:E700; [lia|].
    apply Z.eqb_neq in E700.
    pose proof (days_before_mono contract (T + 1) 700 ltac:(lia) ltac:(lia) ltac:(lia)).
    pose proof (cycle_length E contract 700 ltac:(lia)) as H7.
    unfold cycle_end in H7. cbn in H7. lia. }
  unfold CDateConfig.DAYS_per_GRAND_CYCLE in Hend, Hr.
  rewrite floor_truediv by lia. cbn [bind].
  set (s := Z.min ((r - 1) / 350 + 1) 7) in *.
  unfold new_Season. rewrite (season_domain E contract s Hs). cbn [bind].
  rewrite (season_prior E contract). cbn [Season.number].
  set (r3 := r - (s - 1) * 350) in *.
  rewrite floor_truediv by lia. cbn [bind].
  set (w := Z.min ((r3 - 1) / 7 + 1) 51) in *.
  assert (Week_valid w {| Season.number := s |} = true) as Hwv.
  { destruct (Z.eq_dec w 51) as [E51|N51].
    - rewrite E51. apply (week_terminal E contract). cbn. auto.
    - apply (week_domain E contract); cbn; lia. }
  unfold new_Week. rewrite Hwv. cbn [bind].
  rewrite (week_prior E contract). cbn [Week.number].
  set (r4 := r3 - (w - 1) * 7) in *.
  unfold new_Day.
  replace (Day_valid r4 _ _) with true; [reflexivity|].
  symmetry. destruct (Z.eq_dec w 51) as [E51|N51].
  - specialize (Hd51 E51).
    apply (day_terminal E contract); cbn [Week.number CycleInGrandCycle.number]; lia.
  - apply (day_domain E contract); cbn [Week.number]; lia.
Qed.
End Decomposition.

(** ** The derivative matcher decides the language *)

Module ReFacts.
Import Re.

Lemma Matches_nil_nullable r : Matches r [] <-> nullable r = true.
Proof.
  split.
  - intros H. remember [] as s eqn:Es. induction H; cbn; try discriminate; auto.
    + apply app_eq_nil in Es as [-> ->]. now rewrite IHMatches1, IHMatches2.
    + now rewrite IHMatches.
    + rewrite IHMatches by assumption. apply orb_true_r.
  - induction r; cbn; intros H; try discriminate.
    + constructor.
    + apply andb_true_iff in H as [H1 H2].
      change (@nil ascii) with (@nil ascii ++ []). constructor; auto.
    + apply orb_true_iff in H as [H|H]; [apply MAltL|apply MAltR]; auto.
    + constructor.
Qed.

Lemma Matches_star_cons r s' :
  Matches (Star r) s' ->
  forall a s, s' = a :: s ->
  exists s1 s2, s = s1 ++ s2 /\ Matches r (a :: s1) /\ Matches (Star r) s2.
Proof.
  intros H. remember (Star r) as r' eqn:Er.
  induction H as [| | | | | |r0 s1 s2 H1 _ H2 IH2]; try discriminate.
  injection Er as ->. intros a s Es. destruct s1 as [|b s1].
  - cbn in Es. now apply IH2.
  - cbn in Es. injection Es as -> <-. now exists s1, s2.
Qed.

Lemma Matches_deriv r : forall a s, Matches (deriv a r) s <-> Matches r (a :: s).
Proof.
  induction r as [| |p|r1 IH1 r2 IH2|r1 IH1 r2 IH2|r IH]; intros a s; cbn [deriv].
  - split; intros H; inversion H.
  - split; intros H; inversion H.
  - split; intros H.
    + destruct (p a) eqn:Hp; inversion H; subst. now constructor.
    + inversion H as [|? ? Hp| | | | |]; subst. rewrite Hp. constructor.
  - split; intros H.
    + destruct (nullable r1) eqn:Hn.
      * inversion H as [| | | ? ? ? HL | ? ? ? HR | |]; subst.
        -- inversion HL as [| |? ? s1 s2 Ha Hb| | | |]; subst.
           apply IH1 in Ha. change (a :: s1 ++ s2) with ((a :: s1) ++ s2).
           now constructor.
        -- apply IH2 in HR. apply Matches_nil_nullable in Hn.
           change (a :: s) with ([] ++ a :: s). now constructor.
      * inversion H as [| |? ? s1 s2 Ha Hb| | | |]; subst.
        apply IH1 in Ha. change (a :: s1 ++ s2) with ((a :: s1) ++ s2).
        now constructor.
    + inversion H as [| |? ? s1 s2 Ha Hb| | | |]; subst.
      match goal with Hs : _ ++ _ = _ :: _ |- _ => rename Hs into Es end.
      destruct s1 as [|b s1].
      * cbn in Es. subst s2. apply Matches_nil_nullable in Ha. rewrite Ha.
        apply MAltR. now apply IH2.
      * cbn in Es. injection Es as -> <-. apply IH1 in Ha.
        destruct (nullable r1); [apply MAltL|]; now constructor.
  - split; intros H.
    + inversion H; subst; [apply MAltL; now apply IH1|apply MAltR; now apply IH2].
    + inversion H; subst; [apply MAltL; now apply IH1|apply MAltR; now apply IH2].
  - split; intros H.
    + inversion H as [| |? ? s1 s2 Ha Hb| | | |]; subst.
      apply IH in Ha. change (a :: s1 ++ s2) with ((a :: s1) ++ s2).
      now constructor.
    + destruct (Matches_star_cons r _ H a s eq_refl) as (s1 & s2 & -> & Ha & Hb).
      constructor; [now apply IH|assumption].
Qed.

Lemma accepts_Matches r s : accepts r s = true <-> Matches r s.
Proof.
  revert r. induction s as [|a s IH]; intros r; cbn [accepts].
  - symmetry. apply Matches_nil_nullable.
  - rewrite IH. apply Matches_deriv.
Qed.

Lemma hopeless_no_match r s : hopeless r = true -> ~ Matches r s.
Proof.
  intros Hh H. induction H; cbn in Hh; try discriminate.
  - apply orb_true_iff in Hh as [Hh|Hh]; auto.
  - apply andb_true_iff in Hh as [Hh _]; auto.
  - apply andb_true_iff in Hh as [_ Hh]; auto.
Qed.

Lemma hopeless_rejects r s : hopeless r = true -> accepts r s = false.
Proof.
  intros Hh. destruct (accepts r s) eqn:Ha; [exfalso|reflexivity].
  apply accepts_Matches in Ha. exact (hopeless_no_match r s Hh Ha).
Qed.
End ReFacts.

(** ** The reference calendar meets the contract *)

Lemma reference_days_before c :
  days_before reference_elements c = (c - 1) * 2454 + (c - 1) / 7 * 3.
Proof. reflexivity. Qed.

Lemma reference_contract : ElementsContract reference_elements.
Proof.
  constructor; cbn -[Z.mul Z.div Z.modulo festival_days];
    unfold cycle_end, CDateConfig.DAYS_per_GRAND_CYCLE;
    try rewrite !reference_days_before.
  - intros n Hn. apply andb_true_iff. split; apply Z.leb_le; lia.
  - intros g. lia.
  - intros n Hn. apply andb_true_iff. split; apply Z.leb_le; lia.
  - intros n Hn. apply andb_true_iff. split; apply Z.leb_le; lia.
  - intros s. lia.
  - intros n s Hn Hs. apply andb_true_iff. split; [apply Z.leb_le; lia|].
    apply orb_true_iff. left. apply Z.leb_le. lia.
  - intros s Hs. rewrite Hs. reflexivity.
  - intros w. lia.
  - intros n w c Hw Hn. replace (Week.number w =? 51) with false
      by (symmetry; apply Z.eqb_neq; lia).
    apply andb_true_iff. split; apply Z.leb_le; lia.
  - intros n w c Hw Hc Hn. rewrite Hw. cbn [Z.eqb Pos.eqb].
    set (k := CycleInGrandCycle.number c) in *. clearbody k.
    rewrite !reference_days_before.
    intros Hlen. apply andb_true_iff. split; [apply Z.leb_le; lia|].
    apply Z.leb_le. unfold festival_days.
    destruct (k =? 700) eqn:E700.
    + apply Z.eqb_eq in E700. subst k.
      change ((700 - 1) * 2454 + (700 - 1) / 7 * 3) with 1715643 in Hlen.
      change (700 mod 700 =? 0) with true. cbv iota. lia.
    + apply Z.eqb_neq in E700.
      replace (k mod 700 =? 0) with false
        by (symmetry; apply Z.eqb_neq; rewrite Z.mod_small; lia).
      replace (k + 1 - 1) with k in Hlen by lia.
      destruct (k mod 7 =? 0) eqn:E7.
      * apply Z.eqb_eq in E7. revert Hlen. Z.div_mod_to_equations. lia.
      * apply Z.eqb_neq in E7. revert Hlen. Z.div_mod_to_equations. lia.
  - reflexivity.
  - intros c Hc. destruct (c =? 700) eqn:E700.
    + apply Z.eqb_eq in E700. subst c.
      change ((700 - 1) * 2454 + (700 - 1) / 7 * 3) with 1715643. lia.
    + rewrite reference_days_before. replace (c + 1 - 1) with c by lia.
      Z.div_mod_to_equations. lia.
  - intros c Hc. Z.div_mod_to_equations. lia.
Qed.

(** ** The [adr] setter and the constructor *)

Lemma adr_setter_spec v z :
  adr_setter v = Ok z <-> py_int v = Ok z /\ in_adr_range z.
Proof.
  unfold adr_setter, in_adr_range. destruct (py_int v) as [x|e].
  - destruct ((x <? CDateConfig.MIN_ADR) || (x >? CDateConfig.MAX_ADR)) eqn:Hr.
    + split; [discriminate|]. intros [Hx Hz]. injection Hx as ->.
      apply orb_true_iff in Hr as [Hr|Hr]; [apply Z.ltb_lt in Hr|apply Z.gtb_lt in Hr]; lia.
    + apply orb_false_iff in Hr as [H1 H2].
      apply Z.ltb_ge in H1. rewrite Z.gtb_ltb in H2. apply Z.ltb_ge in H2.
      split; [intros H; injection H as ->; auto|intros [H _]; exact H].
  - split; [destruct e; discriminate|intros [H _]; discriminate].
Qed.

Lemma adr_setter_in_range a : in_adr_range a -> adr_setter (PyInt a) = Ok a.
Proof. intros Ha. apply adr_setter_spec. split; [reflexivity|exact Ha]. Qed.

Lemma adr_setter_out_of_range a :
  ~ in_adr_range a ->
  adr_setter (PyInt a) = Raise (CalmarendianDateError (ADR_out_of_range a)).
Proof.
  unfold adr_setter, in_adr_range. intros Ha. cbn [py_int].
  replace ((a <? CDateConfig.MIN_ADR) || (a >? CDateConfig.MAX_ADR)) with true;
    [reflexivity|].
  symmetry. apply orb_true_iff. rewrite Z.gtb_ltb, !Z.ltb_lt. lia.
Qed.

Section Construction.
Context {E : DateElements}.
Hypothesis contract : ElementsContract E.

Lemma init_succeeds v z :
  py_int v = Ok z -> in_adr_range z ->
  exists date,
    __init__ v = Ok date /\ adr date = z /\ elements_from_adr z = Ok (elements date).
Proof.
  intros Hv Hz. destruct (elements_from_adr_decomposed contract z Hz) as (T & _ & HT).
  unfold __init__. rewrite (proj2 (adr_setter_spec v z) (conj Hv Hz)). cbn [bind].
  rewrite HT. unfold decomposed. cbn [bind].
  eexists. split; [reflexivity|]. split; reflexivity.
Qed.

Lemma init_only_if v date :
  __init__ v = Ok date -> py_int v = Ok (adr date) /\ in_adr_range (adr date).
Proof.
  unfold __init__. destruct (adr_setter v) as [z|e] eqn:Hs; [|discriminate].
  cbn [bind]. apply adr_setter_spec in Hs.
  destruct (elements_from_adr z) as [[[[[g c] s] w] d]|e]; [|discriminate].
  cbn [bind]. intros H. injection H as <-. exact Hs.
Qed.

Lemma decomposed_sum a T :
  let '(g, c, s, w, d) := decomposed E a T in
  py_sum [ GrandCycle_days_prior g; CycleInGrandCycle_days_prior c;
           Season_days_prior s; Week_days_prior w; Day.number d ] = a.
Proof.
  unfold decomposed, py_sum. cbn [fold_left].
  rewrite (grand_cycle_prior E contract), (season_prior E contract),
    (week_prior E contract).
  cbn [GrandCycle.number Season.number Week.number Day.number].
  fold (days_before E T). lia.
Qed.
End Construction.

(** ** The claims *)

(** C1. For every ADR of the valid range, the five elements computed by
    [elements_from_adr] exist, and recomposing them as [from_objects] does,
    by adding the [days_prior()] of grand cycle, cycle, season and week to
    the day number, gives a date with the original ADR. *)
Theorem decompose_compose_roundtrip {E : DateElements} (contract : ElementsContract E) a :
  in_adr_range a ->
  exists date date',
    __init__ (PyInt a) = Ok date
    /\ elements_from_adr a = Ok (elements date)
    /\ from_objects (grand_cycle date) (cycle date) (season date) (week date) (day date)
       = Ok date'
    /\ adr date' = a
    /\ GrandCycle_days_prior (grand_cycle date)
       + CycleInGrandCycle_days_prior (cycle date)
       + Season_days_prior (season date) + Week_days_prior (week date)
       + Day.number (day date) = a.
Proof.
  intros Ha.
  destruct (elements_from_adr_decomposed contract a Ha) as (T & _ & HT).
  pose proof (decomposed_sum contract a T) as Hsum.
  unfold __init__, from_objects. rewrite (adr_setter_in_range a Ha). cbn [bind].
  rewrite HT. destruct (decomposed E a T) as [[[[g c] s] w] d]. cbn [bind].
  eexists. eexists. split; [reflexivity|]. cbn [grand_cycle cycle season week day].
  rewrite Hsum, (adr_setter_in_range a Ha). cbn [bind adr].
  split; [reflexivity|]. split; [reflexivity|]. split; [reflexivity|].
  unfold py_sum in Hsum. cbn [fold_left] in Hsum. lia.
Qed.

Lemma decompose_compose_roundtrip_witness :
  ElementsContract reference_elements /\ in_adr_range 1907093 /\
  exists date date',
    @__init__ reference_elements (PyInt 1907093) = Ok date
    /\ @elements_from_adr reference_elements 1907093 = Ok (elements date)
    /\ @from_objects reference_elements
         (grand_cycle date) (cycle date) (season date) (week date) (day date) = Ok date'
    /\ adr date' = 1907093
    /\ @GrandCycle_days_prior reference_elements (grand_cycle date)
       + @CycleInGrandCycle_days_prior reference_elements (cycle date)
       + @Season_days_prior reference_elements (season date)
       + @Week_days_prior reference_elements (week date)
       + Day.number (day date) = 1907093.
Proof.
  split; [exact reference_contract|]. split; [config; lia|].
  apply (@decompose_compose_roundtrip reference_elements reference_contract 1907093).
  config; lia.
Defined.

(** C2, as amended.  [cycle_decode] takes the floor of the residue over the
    average cycle length, which is [700 * days / 1718101] rounded down and
    never beyond the cycle sought, and scans forward while the next cycle's
    [days_prior()] is strictly below the residue, up to cycle 700; it returns
    the cycle that holds the residual day. *)
Theorem cycle_decode_finds_cycle {E : DateElements} (contract : ElementsContract E) days :
  1 <= days <= CDateConfig.DAYS_per_GRAND_CYCLE ->
  exists T,
    math_floor (Binary64.div (Binary64.of_int days) CDateConfig.DAYS_per_CYCLE)
    = Ok (days * 700 / CDateConfig.DAYS_per_GRAND_CYCLE)
    /\ 0 <= days * 700 / CDateConfig.DAYS_per_GRAND_CYCLE <= T
    /\ cycle_decode days = Ok T
    /\ holds E T days
    /\ forall T', holds E T' days -> T' = T.
Proof.
  intros Hd. destruct (holding_cycle contract days Hd) as (T & HT).
  exists T. split; [apply floor_cycle_estimate; lia|].
  split; [now apply estimate_below_cycle|].
  split; [now apply cycle_decode_holds|].
  split; [exact HT|].
  intros T' HT'. exact (holds_unique contract T' T days HT' HT).
Qed.

Lemma cycle_decode_finds_cycle_witness :
  ElementsContract reference_elements /\
  1 <= 2454 <= CDateConfig.DAYS_per_GRAND_CYCLE /\
  exists T,
    math_floor (Binary64.div (Binary64.of_int 2454) CDateConfig.DAYS_per_CYCLE)
    = Ok (2454 * 700 / CDateConfig.DAYS_per_GRAND_CYCLE)
    /\ 0 <= 2454 * 700 / CDateConfig.DAYS_per_GRAND_CYCLE <= T
    /\ @cycle_decode reference_elements 2454 = Ok T
    /\ holds reference_elements T 2454
    /\ forall T', holds reference_elements T' 2454 -> T' = T.
Proof.
  split; [exact reference_contract|]. split; [config; lia|].
  apply (@cycle_decode_finds_cycle reference_elements reference_contract 2454).
  config; lia.
Defined.

(** C2 as stated fails: on the last day of cycle 1 of the reference calendar
    (residue 2454, with 2454 days before cycle 2) the code stops at cycle 1,
    which holds the day, whereas a scan that goes on while the next cycle's
    [days_prior()] is at most the residue returns cycle 2, which does not. *)
Lemma cycle_decode_scan_is_strict :
  @cycle_decode reference_elements 2454 = Ok 1
  /\ @cycle_decode_spec reference_elements 2454 = Ok 2
  /\ holds reference_elements 1 2454
  /\ ~ holds reference_elements 2 2454.
Proof.
  split; [vm_compute; reflexivity|]. split; [vm_compute; reflexivity|].
  unfold holds, cycle_end. rewrite !reference_days_before.
  cbv -[Z.le Z.lt not]. lia.
Qed.

(** C3 as stated fails: the class keeps a public setter for [adr], and an
    assignment to it on a constructed date replaces the ADR.  Here the date
    of ADR 1 becomes a date of ADR 2. *)
Lemma adr_is_reassignable :
  exists date date',
    @__init__ reference_elements (PyInt 1) = Ok date
    /\ assign_adr date (PyInt 2) = Ok date'
    /\ adr date' <> adr date.
Proof.
  eexists. eexists. split; [vm_compute; reflexivity|].
  split; [vm_compute; reflexivity|]. cbn. discriminate.
Qed.

(** C3, as amended.  The ADR of a constructed date can be reassigned
    through the public setter: an assignment [date.adr = v] succeeds exactly
    when [int(v)] is defined and within [MIN_ADR, MAX_ADR], and the date
    then has ADR [int(v)]; otherwise it raises and yields no date. *)
Theorem assign_adr_replaces_adr date v :
  (forall z, py_int v = Ok z -> in_adr_range z ->
     exists date', assign_adr date v = Ok date' /\ adr date' = z)
  /\ (forall date', assign_adr date v = Ok date' ->
        py_int v = Ok (adr date') /\ in_adr_range (adr date'))
  /\ ((forall z, py_int v = Ok z -> ~ in_adr_range z) ->
      exists e, assign_adr date v = Raise e).
Proof.
  unfold assign_adr. split; [|split].
  - intros z Hv Hz. rewrite (proj2 (adr_setter_spec v z) (conj Hv Hz)). cbn [bind].
    eexists. split; reflexivity.
  - intros date'. destruct (adr_setter v) as [z|e] eqn:Hs; [|discriminate].
    cbn [bind]. intros H. injection H as <-. cbn [adr].
    apply adr_setter_spec in Hs. exact Hs.
  - intros Hbad. destruct (adr_setter v) as [z|e] eqn:Hs.
    + apply adr_setter_spec in Hs as [Hv Hz]. exfalso. exact (Hbad z Hv Hz).
    + now exists e.
Qed.

Lemma assign_adr_replaces_adr_witness :
  exists date', assign_adr first_day (PyInt 2) = Ok date' /\ adr date' = 2.
Proof.
  refine (proj1 (assign_adr_replaces_adr first_day (PyInt 2)) 2 eq_refl _).
  config; lia.
Defined.

(** C4 as stated fails: the setter converts with [int()], which truncates,
    so the non-integral float 3.5 is accepted and gives the date of ADR 3. *)
Lemma construction_accepts_fraction :
  is_integral (PyFloat (truediv 7 2)) = false
  /\ exists date,
       @__init__ reference_elements (PyFloat (truediv 7 2)) = Ok date /\ adr date = 3.
Proof.
  split; [vm_compute; reflexivity|].
  eexists. split; [vm_compute; reflexivity|reflexivity].
Qed.

(** C4, as amended.  Construction from a value [v] succeeds if and only if
    [int(v)] is defined and lies within [MIN_ADR, MAX_ADR] =
    [-1,718,100, 170,091,999], and the date then has ADR [int(v)].
    Construction from [MIN_ADR] and from [MAX_ADR] succeeds; construction
    from [MIN_ADR - 1] and from [MAX_ADR + 1] raises the out-of-range error. *)
Theorem construction_validates {E : DateElements} (contract : ElementsContract E) :
  (forall v,
     (exists date, __init__ v = Ok date) <-> (exists z, py_int v = Ok z /\ in_adr_range z))
  /\ (forall v date, __init__ v = Ok date -> py_int v = Ok (adr date))
  /\ (exists date, __init__ (PyInt CDateConfig.MIN_ADR) = Ok date)
  /\ (exists date, __init__ (PyInt CDateConfig.MAX_ADR) = Ok date)
  /\ __init__ (PyInt (CDateConfig.MIN_ADR - 1))
     = Raise (CalmarendianDateError (ADR_out_of_range (CDateConfig.MIN_ADR - 1)))
  /\ __init__ (PyInt (CDateConfig.MAX_ADR + 1))
     = Raise (CalmarendianDateError (ADR_out_of_range (CDateConfig.MAX_ADR + 1))).
Proof.
  split; [|split; [|split; [|split; [|split]]]].
  - intros v. split.
    + intros [date H]. exists (adr date). now apply init_only_if.
    + intros (z & Hv & Hz).
      destruct (init_succeeds contract v z Hv Hz) as (date & H & _). now exists date.
  - intros v date H. now apply init_only_if.
  - destruct (init_succeeds contract (PyInt CDateConfig.MIN_ADR) _ eq_refl) as (d & H & _);
      [config; lia|now exists d].
  - destruct (init_succeeds contract (PyInt CDateConfig.MAX_ADR) _ eq_refl) as (d & H & _);
      [config; lia|now exists d].
  - unfold __init__. rewrite adr_setter_out_of_range; [reflexivity|config; lia].
  - unfold __init__. rewrite adr_setter_out_of_range; [reflexivity|config; lia].
Qed.

Lemma construction_validates_witness :
  ElementsContract reference_elements /\
  exists date, @__init__ reference_elements (PyInt CDateConfig.MAX_ADR) = Ok date.
Proof.
  split; [exact reference_contract|].
  exact (proj1 (proj2 (proj2 (proj2
           (@construction_validates reference_elements reference_contract))))).
Defined.

(** C5. The date that [from_objects] builds from five element objects holds
    those objects, and its ADR is the sum of the four [days_prior()] values
    and the day number; the date is built exactly when that sum is within
    [MIN_ADR, MAX_ADR]. *)
Theorem from_objects_adr_is_sum {E : DateElements} g c s w d :
  let total := GrandCycle_days_prior g + CycleInGrandCycle_days_prior c
               + Season_days_prior s + Week_days_prior w + Day.number d in
  (forall date,
     from_objects g c s w d = Ok date ->
     adr date = total /\ elements date = (g, c, s, w, d))
  /\ (in_adr_range total -> exists date, from_objects g c s w d = Ok date)
  /\ (~ in_adr_range total ->
      from_objects g c s w d = Raise (CalmarendianDateError (ADR_out_of_range total))).
Proof.
  intros total. unfold from_objects.
  assert (py_sum [ GrandCycle_days_prior g; CycleInGrandCycle_days_prior c;
                   Season_days_prior s; Week_days_prior w; Day.number d ] = total) as ->.
  { unfold py_sum, total. cbn [fold_left]. lia. }
  split; [|split].
  - intros date. destruct (adr_setter (PyInt total)) as [z|e] eqn:Hs; [|discriminate].
    cbn [bind]. intros H. injection H as <-. cbn [adr].
    apply adr_setter_spec in Hs as [Hv _]. cbn [py_int] in Hv. injection Hv as <-.
    split; reflexivity.
  - intros Ht. rewrite (adr_setter_in_range total Ht). cbn [bind]. eexists. reflexivity.
  - intros Ht. rewrite (adr_setter_out_of_range total Ht). reflexivity.
Qed.

Lemma from_objects_adr_is_sum_witness :
  let date := new_cycle_day_778 in
  @from_objects reference_elements
    (grand_cycle date) (cycle date) (season date) (week date) (day date) = Ok date
  /\ adr date
     = @GrandCycle_days_prior reference_elements (grand_cycle date)
       + @CycleInGrandCycle_days_prior reference_elements (cycle date)
       + @Season_days_prior reference_elements (season date)
       + @Week_days_prior reference_elements (week date) + Day.number (day date).
Proof.
  intros date.
  assert (@from_objects reference_elements
            (grand_cycle date) (cycle date) (season date) (week date) (day date)
          = Ok date) as H by (vm_compute; reflexivity).
  split; [exact H|].
  exact (proj1 (proj1 (@from_objects_adr_is_sum reference_elements _ _ _ _ _) date H)).
Defined.

(** C6. [absolute_cycle_ref] returns the unsigned cycle count
    [|(grand_cycle - 1) * 700 + cycle|] with the era marker BZ when the grand
    cycle number is at most 0, else BH when the count is in 1..500, else CE. *)
Theorem absolute_cycle_ref_value date :
  let g := GrandCycle.number (grand_cycle date) in
  let acr := Z.abs ((g - 1) * 700 + CycleInGrandCycle.number (cycle date)) in
  fst (absolute_cycle_ref date) = acr
  /\ (g <= 0 -> snd (absolute_cycle_ref date) = BZ)
  /\ (0 < g -> 1 <= acr <= 500 -> snd (absolute_cycle_ref date) = BH)
  /\ (0 < g -> ~ (1 <= acr <= 500) -> snd (absolute_cycle_ref date) = CE).
Proof.
  intros g acr. unfold absolute_cycle_ref. fold g. fold acr. cbn [fst snd].
  split; [reflexivity|].
  destruct (g <=? 0) eqn:Hg; [apply Z.leb_le in Hg|apply Z.leb_gt in Hg].
  - repeat split; intros; auto; lia.
  - destruct ((1 <=? acr) && (acr <=? 500)) eqn:Ha.
    + apply andb_true_iff in Ha as [H1 H2]. apply Z.leb_le in H1, H2.
      repeat split; intros; auto; lia.
    + apply andb_false_iff in Ha. rewrite !Z.leb_gt in Ha.
      repeat split; intros; auto; lia.
Qed.

Lemma absolute_cycle_ref_value_witness :
  fst (absolute_cycle_ref new_cycle_day_778) = 778
  /\ snd (absolute_cycle_ref new_cycle_day_778) = CE.
Proof.
  destruct (absolute_cycle_ref_value new_cycle_day_778) as (H1 & _ & _ & H4).
  split; [exact H1|]. apply H4; cbn; lia.
Defined.

(** C8. A date of week 51 is rendered by [colloquial_date] as the day name
    (the short one unless verbose), " of ", the absolute cycle count and the
    era text, with no week or season clause; a date of week 1..50 is
    rendered with the day name, the week number and the season name. *)
Theorem colloquial_date_forms {E : DateElements}
    (date : CalmarendianDate) (era_marker : option string) (verbose : bool) :
  let acr := fst (absolute_cycle_ref date) in
  let em := snd (absolute_cycle_ref date) in
  let era :=
    if era_marker_shown era_marker em
    then (if verbose then " " ++ Era.value em else " " ++ Era.name em)%string
    else ""%string in
  (Week.number (week date) = 51 ->
   colloquial_date date era_marker verbose
   = ((if verbose then Day_name (day date) else Day_short_name (day date))
      ++ " of " ++ str acr ++ era)%string)
  /\ (1 <= Week.number (week date) <= 50 ->
      colloquial_date date era_marker verbose
      = (Day_name (day date) ++ (if verbose then " of" else ",") ++ " Week "
         ++ str (Week.number (week date)) ++ " of " ++ Season_name (season date)
         ++ " " ++ str acr ++ era)%string).
Proof.
  intros acr em era. unfold colloquial_date.
  destruct (absolute_cycle_ref date) as [acr' em'] eqn:Hr.
  subst acr em era. cbn [fst snd]. split.
  - intros Hw. rewrite Hw. reflexivity.
  - intros Hw. replace (Week.number (week date) =? 51) with false; [reflexivity|].
    symmetry. apply Z.eqb_neq. lia.
Qed.

Lemma colloquial_date_forms_witness :
  Week.number (week cycle_1_last_day) = 51
  /\ @colloquial_date reference_elements cycle_1_last_day None false = "F4 of 1"%string
  /\ @colloquial_date reference_elements new_cycle_day_778 None false
     = "Monday, Week 1 of Season 1 778"%string.
Proof.
  split; [reflexivity|]. split.
  - exact (proj1 (@colloquial_date_forms reference_elements cycle_1_last_day None false)
             eq_refl).
  - refine (proj2 (@colloquial_date_forms reference_elements new_cycle_day_778 None false) _).
    cbn. lia.
Defined.

(** C9. Two dates are equal exactly when their ADRs are equal, one is
    before the other exactly when its ADR is smaller, and any two dates are
    comparable; so the dates built from two ADRs [a1 < a2] are in that
    order. *)
Theorem dates_ordered_by_adr :
  (forall d1 d2,
     (__eq__ d1 d2 = true <-> adr d1 = adr d2)
     /\ (__lt__ d1 d2 = true <-> adr d1 < adr d2)
     /\ (__lt__ d1 d2 = true \/ __eq__ d1 d2 = true \/ __lt__ d2 d1 = true))
  /\ (forall (E : DateElements) a1 a2 d1 d2,
        __init__ (PyInt a1) = Ok d1 -> __init__ (PyInt a2) = Ok d2 -> a1 < a2 ->
        __lt__ d1 d2 = true /\ __eq__ d1 d2 = false /\ __lt__ d2 d1 = false).
Proof.
  split.
  - intros d1 d2. unfold __eq__, __lt__.
    split; [apply Z.eqb_eq|]. split; [apply Z.ltb_lt|].
    rewrite !Z.ltb_lt, Z.eqb_eq. lia.
  - intros E a1 a2 d1 d2 H1 H2 Hlt.
    apply init_only_if in H1 as [H1 _]. apply init_only_if in H2 as [H2 _].
    cbn [py_int] in H1, H2. injection H1 as ->. injection H2 as ->.
    unfold __eq__, __lt__. split; [apply Z.ltb_lt; lia|].
    split; [apply Z.eqb_neq; lia|apply Z.ltb_ge; lia].
Qed.

Lemma dates_ordered_by_adr_witness :
  @__init__ reference_elements (PyInt 1) = Ok first_day
  /\ @__init__ reference_elements (PyInt 2454) = Ok cycle_1_last_day
  /\ 1 < 2454
  /\ __lt__ first_day cycle_1_last_day = true.
Proof.
  assert (@__init__ reference_elements (PyInt 1) = Ok first_day) as H1
    by (vm_compute; reflexivity).
  assert (@__init__ reference_elements (PyInt 2454) = Ok cycle_1_last_day) as H2
    by (vm_compute; reflexivity).
  split; [exact H1|]. split; [exact H2|]. split; [lia|].
  exact (proj1 (proj2 dates_ordered_by_adr reference_elements 1 2454 _ _ H1 H2 ltac:(lia))).
Defined.

Lemma two_digit_field n : 0 <= n <= 99 -> String.length (rjust0 2 (str n)) = 2%nat.
Proof.
  intros Hn.
  assert (forallb (fun k => Nat.eqb (String.length (rjust0 2 (str (Z.of_nat k)))) 2)
            (seq 0 100) = true) as H by (vm_compute; reflexivity).
  rewrite forallb_forall in H. specialize (H (Z.to_nat n)).
  rewrite Z2Nat.id in H by lia. apply Nat.eqb_eq, H, in_seq. lia.
Qed.

(** C10. For every ADR of the valid range the grand cycle number taken by
    the decomposition, [floor((adr - 1) / 1718101) + 1], lies in 0..99, so
    its zero-padded field in Grand Cycle Notation has two characters. *)
Theorem grand_cycle_number_fits {E : DateElements} (contract : ElementsContract E) a :
  in_adr_range a ->
  let gc := (a - 1) / CDateConfig.DAYS_per_GRAND_CYCLE + 1 in
  math_floor (truediv (a - 1) CDateConfig.DAYS_per_GRAND_CYCLE) = Ok (gc - 1)
  /\ 0 <= gc <= 99
  /\ (exists date,
        __init__ (PyInt a) = Ok date /\ GrandCycle.number (grand_cycle date) = gc)
  /\ String.length (rjust0 2 (str gc)) = 2%nat.
Proof.
  intros Ha gc. pose proof (grand_cycle_number_range a Ha) as Hgc. fold gc in Hgc.
  split; [|split; [exact Hgc|split]].
  - replace (gc - 1) with ((a - 1) / CDateConfig.DAYS_per_GRAND_CYCLE) by (unfold gc; lia).
    now apply floor_grand_cycle.
  - destruct (elements_from_adr_decomposed contract a Ha) as (T & _ & HT).
    unfold __init__. rewrite (adr_setter_in_range a Ha). cbn [bind]. rewrite HT.
    unfold decomposed. cbn [bind]. eexists. split; reflexivity.
  - now apply two_digit_field.
Qed.

Lemma grand_cycle_number_fits_witness :
  ElementsContract reference_elements /\ in_adr_range CDateConfig.MAX_ADR /\
  math_floor (truediv (CDateConfig.MAX_ADR - 1) CDateConfig.DAYS_per_GRAND_CYCLE) = Ok 98
  /\ exists date,
       @__init__ reference_elements (PyInt CDateConfig.MAX_ADR) = Ok date
       /\ GrandCycle.number (grand_cycle date) = 99.
Proof.
  split; [exact reference_contract|]. split; [config; lia|].
  destruct (@grand_cycle_number_fits reference_elements reference_contract
              CDateConfig.MAX_ADR ltac:(config; lia)) as (H1 & _ & H3 & _).
  split; [exact H1|exact H3].
Defined.

(** ** The Common Symbolic Notation pattern *)

Module CsnFacts.
Import Re.

Lemma list_ascii_of_string_app a b :
  list_ascii_of_string (a ++ b) = list_ascii_of_string a ++ list_ascii_of_string b.
Proof. induction a as [|c a IH]; cbn; [reflexivity|now rewrite IH]. Qed.

Lemma Matches_range lo hi c :
  between lo hi c = true -> Matches (range true lo hi) [c].
Proof.
  intros H. constructor. unfold ignorecase. unfold between in H. now rewrite H.
Qed.

Lemma Matches_lit c : Matches (lit true c) [c].
Proof. constructor. unfold ignorecase. now rewrite Ascii.eqb_refl. Qed.

Lemma Matches_lit_upper c x : to_upper x = c -> Matches (lit true c) [x].
Proof.
  intros <-. constructor. unfold ignorecase.
  rewrite Ascii.eqb_refl. now rewrite !orb_true_r.
Qed.

Lemma Matches_spaces n : Matches (Star (lit true " ")) (list_ascii_of_string (spaces n)).
Proof.
  induction n as [|n IH]; cbn [spaces list_ascii_of_string]; [constructor|].
  change (" "%char :: list_ascii_of_string (spaces n))
    with ([" "%char] ++ list_ascii_of_string (spaces n)).
  constructor; [apply Matches_lit|exact IH].
Qed.

Lemma Matches_word2 c1 c2 x : 
  upper x = String c1 (String c2 EmptyString) ->
  Matches (word true (String c1 (String c2 EmptyString))) (list_ascii_of_string x).
Proof.
  destruct x as [|x1 [|x2 [|x3 x]]]; cbn [upper]; try discriminate.
  intros H. injection H as H1 H2. cbn [word list_ascii_of_string].
  change [x1; x2] with ([x1] ++ [x2] ++ []).
  constructor; [now apply Matches_lit_upper|].
  constructor; [now apply Matches_lit_upper|constructor].
Qed.

Lemma Matches_era era :
  era_field era = true ->
  Matches (opt (Alt (word true "BZ") (Alt (word true "BH") (word true "CE"))))
          (list_ascii_of_string era).
Proof.
  unfold era_field. rewrite !orb_true_iff, !String.eqb_eq.
  intros [[[H|H]|H]|H].
  - subst era. apply MAltR. constructor.
  - apply MAltL, MAltL. now apply Matches_word2.
  - apply MAltL, MAltR, MAltL. now apply Matches_word2.
  - apply MAltL, MAltR, MAltR. now apply Matches_word2.
Qed.

Lemma Matches_acr acr :
  acr_field acr = true ->
  Matches (Cat (opt (range true "1" "9")) (times 3 (range true "0" "9")))
          (list_ascii_of_string acr).
Proof.
  unfold acr_field, is_digit.
  destruct (list_ascii_of_string acr) as [|a [|b [|c [|d [|e l]]]]]; try discriminate.
  - rewrite !andb_true_iff. intros [[Ha Hb] Hc].
    change [a; b; c] with ([] ++ [a] ++ [b] ++ [c] ++ []).
    constructor; [apply MAltR; constructor|]. cbn [times].
    repeat (constructor; [now apply Matches_range|]). constructor.
  - rewrite !andb_true_iff. intros [[[Ha Hb] Hc] Hd].
    change [a; b; c; d] with ([a] ++ [b] ++ [c] ++ [d] ++ []).
    constructor; [apply MAltL; now apply Matches_range|]. cbn [times].
    repeat (constructor; [now apply Matches_range|]). constructor.
Qed.

Lemma digit_is_not_dash d : is_digit d = true -> ignorecase (Ascii.eqb "-") d = false.
Proof.
  destruct d as [[] [] [] [] [] [] [] []]; vm_compute; intros H;
    try discriminate; reflexivity.
Qed.
End CsnFacts.

(** C7 as stated fails: an absolute cycle reference of one digit does not
    match the pattern. *)
Lemma csn_rejects_one_digit_acr :
  Re.py_match CDateConfig.CSN_DATE_STRING_RE "7-1-01-1" = false.
Proof. vm_compute. reflexivity. Qed.

(** C7, as amended.  The pattern accepts the strings [ACR-S-WW-D], then any
    number of spaces and an optional era marker BZ, BH or CE in any case,
    whose absolute cycle reference has three digits, or four that do not
    start with 0, with season 1-7, week 00-59 and day 1-8.  It accepts no
    string whose first field has one or two characters, and no string that
    starts with four digits of which the first is 0. *)
Theorem csn_pattern_accepts :
  (forall acr s w1 w2 d n era,
     acr_field acr = true -> between "1" "7" s = true ->
     between "0" "5" w1 = true -> is_digit w2 = true ->
     between "1" "8" d = true -> era_field era = true ->
     Re.py_match CDateConfig.CSN_DATE_STRING_RE (csn_string acr s w1 w2 d n era) = true)
  /\ (forall a rest,
        Re.py_match CDateConfig.CSN_DATE_STRING_RE (String a (String "-" rest)) = false)
  /\ (forall a b rest,
        Re.py_match CDateConfig.CSN_DATE_STRING_RE (String a (String b (String "-" rest)))
        = false)
  /\ (forall b c d rest,
        is_digit d = true ->
        Re.py_match CDateConfig.CSN_DATE_STRING_RE
          (String "0" (String b (String c (String d rest)))) = false).
Proof.
  split; [|split; [|split]].
  - intros acr s w1 w2 d n era Hacr Hs Hw1 Hw2 Hd Hera.
    unfold Re.py_match. apply ReFacts.accepts_Matches.
    unfold csn_string. rewrite CsnFacts.list_ascii_of_string_app.
    cbn [list_ascii_of_string]. rewrite CsnFacts.list_ascii_of_string_app.
    unfold Re.anchored.
    rewrite <- (app_nil_r (list_ascii_of_string acr ++ _)).
    constructor; [|apply Re.MAltR; constructor].
    unfold CDateConfig.CSN_DATE_STRING_RE.
    constructor; [now apply CsnFacts.Matches_acr|].
    change ("-"%char :: ?l) with (["-"%char] ++ l).
    constructor; [apply CsnFacts.Matches_lit|].
    change (s :: ?l) with ([s] ++ l).
    constructor; [now apply CsnFacts.Matches_range|].
    change ("-"%char :: ?l) with (["-"%char] ++ l).
    constructor; [apply CsnFacts.Matches_lit|].
    change (w1 :: w2 :: ?l) with (([w1] ++ [w2]) ++ l).
    constructor; [constructor; now apply CsnFacts.Matches_range|].
    change ("-"%char :: ?l) with (["-"%char] ++ l).
    constructor; [apply CsnFacts.Matches_lit|].
    change (d :: ?l) with ([d] ++ l).
    constructor; [now apply CsnFacts.Matches_range|].
    constructor; [apply CsnFacts.Matches_spaces|now apply CsnFacts.Matches_era].
  - intros a rest. unfold Re.py_match. cbn [list_ascii_of_string Re.accepts].
    apply ReFacts.hopeless_rejects. csn_derive a. all: vm_compute; reflexivity.
  - intros a b rest. unfold Re.py_match. cbn [list_ascii_of_string Re.accepts].
    apply ReFacts.hopeless_rejects. csn_derive a. all: csn_derive b.
    all: vm_compute; reflexivity.
  - intros b c d rest Hd. unfold Re.py_match. cbn [list_ascii_of_string Re.accepts].
    apply ReFacts.hopeless_rejects.
    pose proof (CsnFacts.digit_is_not_dash d Hd) as Hdash.
    csn_derive_char "0"%char. csn_derive b. all: csn_derive c.
    all: cbn [Re.deriv Re.nullable andb orb]; rewrite ?Hdash.
    all: csn_derive d.
    all: vm_compute; reflexivity.
Qed.

Lemma csn_pattern_accepts_witness :
  acr_field "777" = true /\ era_field "ce" = true /\
  Re.py_match CDateConfig.CSN_DATE_STRING_RE "777-7-07-1 ce" = true.
Proof.
  split; [reflexivity|]. split; [reflexivity|].
  exact (proj1 csn_pattern_accepts "777"%string "7"%char "0"%char "7"%char "1"%char
           1%nat "ce"%string eq_refl eq_refl eq_refl eq_refl eq_refl eq_refl).
Defined.
